(** * dskit: retry engine, circuit breaker and backoff strategies

    A shallow embedding of the Go packages [backoff], [circuitbreaker] and
    [retry] of dskit, and the properties their specification states.

    Conventions of the embedding.
    - Go's [int] is a 64-bit and [int32] a 32-bit two's complement integer:
      both are carried as [Z], and every arithmetic operation of the source
      that can leave the range is followed by [wrap64] or [wrap32].
    - [time.Time] and [time.Duration] are [Z] numbers of nanoseconds; each
      call site of [time.Now()] receives its reading as an argument.
    - [float64] values are idealised as exact rationals ([Q]): rounding,
      infinities and NaN are outside the embedding.
    - A Go panic (nil dereference, nil interface call) is an explicit result.
    - An [error] is [option err]; [None] is Go's [nil]. *)

From Stdlib Require Import ZArith QArith Qround Qpower List Bool String Lia.
Import ListNotations.
Open Scope Z_scope.

(** ** Machine integers *)

Definition MaxInt32 : Z := 2147483647.
Definition MinInt32 : Z := -2147483648.
Definition MaxInt64 : Z := 9223372036854775807.
Definition MinInt64 : Z := -9223372036854775808.

Definition wrap32 (z : Z) : Z := (z + 2147483648) mod 4294967296 - 2147483648.
Definition wrap64 (z : Z) : Z :=
  (z + 9223372036854775808) mod 18446744073709551616 - 9223372036854775808.

Definition in_int32 (z : Z) : Prop := MinInt32 <= z <= MaxInt32.
Definition in_int64 (z : Z) : Prop := MinInt64 <= z <= MaxInt64.

Definition Time := Z.
Definition Duration := Z.

Definition Millisecond : Duration := 1000000.
Definition Second : Duration := 1000000000.

(** [time.Since(t)] with the clock reading [now]. *)
Definition time_Since (now t : Time) : Duration := now - t.

(** ** Errors: the values [errors.Is] walks *)

Module errors.

(** The error values of the programs under study: [errors.New] values
    (compared by the address [ptr] of the allocation), [fmt.Errorf] with one
    [%w] verb, [context.DeadlineExceeded] (a comparable struct value) and the
    circuit breaker's [*PanicError], which unwraps to its [Cause]. *)
#[warnings="-register-all"]
Inductive err : Type :=
| errorString (ptr : positive) (s : string)
| wrapError (ptr : positive) (msg : string) (inner : err)
| deadlineExceededError
| PanicError (ptr : positive) (cause : option err).

Definition error := option err.

Fixpoint err_eqb (a b : err) : bool :=
  match a, b with
  | errorString p s, errorString q t => Pos.eqb p q && String.eqb s t
  | wrapError p s x, wrapError q t y =>
      Pos.eqb p q && String.eqb s t && err_eqb x y
  | deadlineExceededError, deadlineExceededError => true
  | PanicError p c, PanicError q d =>
      Pos.eqb p q &&
      match c, d with
      | Some x, Some y => err_eqb x y
      | None, None => true
      | _, _ => false
      end
  | _, _ => false
  end.

(** The loop of [errors.is]: compare, then follow [Unwrap]. *)
Fixpoint is_chain (e target : err) : bool :=
  err_eqb e target ||
  match e with
  | wrapError _ _ inner => is_chain inner target
  | PanicError _ (Some cause) => is_chain cause target
  | _ => false
  end.

(** [errors.Is(err, target)]. *)
Definition Is (e target : error) : bool :=
  match e, target with
  | Some x, Some t => is_chain x t
  | None, None => true
  | _, _ => false
  end.

End errors.
Import errors.

Module context.
(** [context.Canceled = errors.New("context canceled")]. *)
Definition Canceled : err := errorString 1 "context canceled".
Definition DeadlineExceeded : err := deadlineExceededError.
End context.

(** ** Panics *)

(** A function that may panic instead of returning. *)
Inductive Completion (A : Type) : Type :=
| Returns (a : A)
| Panics.
Arguments Returns {A} a.
Arguments Panics {A}.

Definition bindC {A B : Type} (c : Completion A) (k : A -> Completion B)
  : Completion B :=
  match c with
  | Returns a => k a
  | Panics => Panics
  end.

(** ** Package circuitbreaker *)

Module circuitbreaker.

Inductive CallOutcome : Type :=
| OutcomeSuccess
| OutcomeFailure
| OutcomeSlowSuccess
| OutcomeSlowFailure.

(** *** container/ring, as CountWindow uses it

    A ring is the list of its [Value]s read from the current element in the
    direction of [Next]; [None] is a [nil] Value, and the empty list is the
    [nil] ring that [ring.New] returns for a size that is not positive. *)
Definition Ring := list (option CallOutcome).

Definition ring_New (n : Z) : Ring := repeat None (Z.to_nat n).
Definition ring_Len (r : Ring) : Z := Z.of_nat (List.length r).
Definition ring_Next (r : Ring) : Ring :=
  match r with
  | [] => []
  | v :: rest => rest ++ [v]
  end.

(** *** CountWindow *)

Record CountWindow : Type := mkCountWindow {
  ring : Ring;
  successCount : Z;
  failureCount : Z;
  slowCallCount : Z
}.

Definition NewCountWindow (size : Z) : CountWindow :=
  mkCountWindow (ring_New size) 0 0 0.

Definition decrementOutcome (outcome : CallOutcome) (w : CountWindow)
  : CountWindow :=
  match outcome with
  | OutcomeSuccess =>
      mkCountWindow (ring w) (wrap32 (successCount w - 1)) (failureCount w)
        (slowCallCount w)
  | OutcomeFailure =>
      mkCountWindow (ring w) (successCount w) (wrap32 (failureCount w - 1))
        (slowCallCount w)
  | OutcomeSlowSuccess =>
      mkCountWindow (ring w) (wrap32 (successCount w - 1)) (failureCount w)
        (wrap32 (slowCallCount w - 1))
  | OutcomeSlowFailure =>
      mkCountWindow (ring w) (successCount w) (wrap32 (failureCount w - 1))
        (wrap32 (slowCallCount w - 1))
  end.

Definition incrementOutcome (outcome : CallOutcome) (w : CountWindow)
  : CountWindow :=
  match outcome with
  | OutcomeSuccess =>
      mkCountWindow (ring w) (wrap32 (successCount w + 1)) (failureCount w)
        (slowCallCount w)
  | OutcomeFailure =>
      mkCountWindow (ring w) (successCount w) (wrap32 (failureCount w + 1))
        (slowCallCount w)
  | OutcomeSlowSuccess =>
      mkCountWindow (ring w) (wrap32 (successCount w + 1)) (failureCount w)
        (wrap32 (slowCallCount w + 1))
  | OutcomeSlowFailure =>
      mkCountWindow (ring w) (successCount w) (wrap32 (failureCount w + 1))
        (wrap32 (slowCallCount w + 1))
  end.

(** [RecordOutcome]: reading [w.ring.Value] of a nil ring panics. *)
Definition CountWindow_RecordOutcome (outcome : CallOutcome) (w : CountWindow)
  : Completion CountWindow :=
  match ring w with
  | [] => Panics
  | old :: rest =>
      let w1 := match old with
                | Some oldOutcome => decrementOutcome oldOutcome w
                | None => w
                end in
      let w2 := mkCountWindow (Some outcome :: rest) (successCount w1)
                  (failureCount w1) (slowCallCount w1) in
      let w3 := incrementOutcome outcome w2 in
      Returns (mkCountWindow (ring_Next (ring w3)) (successCount w3)
                 (failureCount w3) (slowCallCount w3))
  end.

(** [Size]: the sum is taken in int32 and then widened to int. *)
Definition CountWindow_Size (w : CountWindow) : Z :=
  wrap32 (successCount w + failureCount w).

Definition CountWindow_Reset (w : CountWindow) : CountWindow :=
  mkCountWindow (ring_New (ring_Len (ring w))) 0 0 0.

(** [CallRates]: total calls, success, failure and slow call rate. *)
Definition CountWindow_CallRates (w : CountWindow) : Z * Q * Q * Q :=
  let totalCalls := CountWindow_Size w in
  if totalCalls =? 0 then (0, 0%Q, 0%Q, 0%Q)
  else
    let successRate :=
      (inject_Z (successCount w) / inject_Z totalCalls * 100)%Q in
    let failureRate :=
      (inject_Z (failureCount w) / inject_Z totalCalls * 100)%Q in
    let slowCallRate :=
      (inject_Z (slowCallCount w) / inject_Z totalCalls * 100)%Q in
    (totalCalls, successRate, failureRate, slowCallRate).

(** A sequence of operations on a window, as a client issues them. *)
Inductive WindowOp : Type :=
| OpRecord (outcome : CallOutcome)
| OpReset.

Definition applyOp (op : WindowOp) (w : CountWindow) : Completion CountWindow :=
  match op with
  | OpRecord outcome => CountWindow_RecordOutcome outcome w
  | OpReset => Returns (CountWindow_Reset w)
  end.

Fixpoint applyOps (ops : list WindowOp) (w : CountWindow)
  : Completion CountWindow :=
  match ops with
  | [] => Returns w
  | op :: rest => bindC (applyOp op w) (applyOps rest)
  end.


(** *** The Window interface

    A Go interface value is an object: a state of some implementation type
    together with its methods. [CallRates] has the three results (success,
    failure and slow call rate) of the declaration that the breaker's
    [areThresholdsExceededUnsafe] is written against. *)
Record Window : Type := mkWindow {
  impl : Type;
  this : impl;
  impl_Size : impl -> Z;
  impl_RecordOutcome : CallOutcome -> impl -> Completion impl;
  impl_CallRates : impl -> Q * Q * Q;
  impl_Reset : impl -> impl
}.

Definition withThis (w : Window) (x : impl w) : Window :=
  mkWindow (impl w) x (impl_Size w) (impl_RecordOutcome w) (impl_CallRates w)
    (impl_Reset w).

Definition Size (w : Window) : Z := impl_Size w (this w).
Definition RecordOutcome (outcome : CallOutcome) (w : Window)
  : Completion Window :=
  match impl_RecordOutcome w outcome (this w) with
  | Returns x => Returns (withThis w x)
  | Panics => Panics
  end.
Definition CallRates (w : Window) : Q * Q * Q := impl_CallRates w (this w).
Definition Reset (w : Window) : Window := withThis w (impl_Reset w (this w)).

(** [*CountWindow] as a [Window]: the rates of its [CallRates], without the
    total that the four-result form returns first. *)
Definition CountWindow_rates (w : CountWindow) : Q * Q * Q :=
  match CountWindow_CallRates w with
  | (_, successRate, failureRate, slowCallRate) =>
      (successRate, failureRate, slowCallRate)
  end.

Definition CountWindow_Window (w : CountWindow) : Window :=
  mkWindow CountWindow w CountWindow_Size CountWindow_RecordOutcome
    CountWindow_rates CountWindow_Reset.

(** *** State, errors, configuration *)

Inductive State : Type :=
| StateClosed
| StateHalfOpen
| StateOpen
| StateMetricsOnly.

Definition State_eqb (a b : State) : bool :=
  match a, b with
  | StateClosed, StateClosed => true
  | StateHalfOpen, StateHalfOpen => true
  | StateOpen, StateOpen => true
  | StateMetricsOnly, StateMetricsOnly => true
  | _, _ => false
  end.

Definition ErrOpenState : err := errorString 2 "circuitbreaker: open state".
Definition ErrHalfOpenState : err :=
  errorString 3 "circuitbreaker: half-open state with no available calls".

Definition IsCallNotPermittedError (e : error) : bool :=
  errors.Is e (Some ErrOpenState) || errors.Is e (Some ErrHalfOpenState).

Section Breaker.

(** The dynamic type [any] of call results. *)
Variable any : Type.

(** [Config]. The [Metrics] field is left out: the state machine never reads
    it. [Window] is the window handed over to the breaker by [New]. *)
Record Config : Type := mkConfig {
  Config_Window : Window;
  MetricsOnlyMode : bool;
  MinimumNumberOfCalls : Z;
  FailureRateThreshold : Q;
  SlowCallRateThreshold : Q;
  SlowCallDurationThreshold : Duration;
  PermittedNumberOfCallsInHalfOpenState : Z;
  WaitDurationInOpenState : Duration;
  FailOnResultPredicate : option (any -> bool);
  FailOnErrorPredicate : option (err -> bool);
  FailErrors : list error;
  IgnoreErrors : list error
}.

Definition defaultConfig : Config :=
  mkConfig (CountWindow_Window (NewCountWindow 100)) false 20 50 50
    (10 * Second) 10 (60 * Second) None None [] [].

(** An [Option] is a closure over the arguments of the [With...] function
    that built it; [applyOption] is its call on the configuration. *)
Inductive Option : Type :=
| WithMetricsOnlyMode
| WithWindow (window : Window)
| WithMinimumNumberOfCalls (n : Z)
| WithFailureRateThreshold (threshold : Q)
| WithSlowCallRateThreshold (threshold : Q)
| WithSlowCallDurationThreshold (duration : Duration)
| WithPermittedNumberOfCallsInHalfOpenState (n : Z)
| WithWaitDurationInOpenState (duration : Duration)
| WithFailOnResultPredicate (predicate : option (any -> bool))
| WithFailOnErrorPredicate (predicate : option (err -> bool))
| WithFailErrors (errs : list error)
| WithIgnoreErrors (errs : list error).

Definition applyOption (opt : Option) (c : Config) : Config :=
  match opt with
  | WithMetricsOnlyMode =>
      mkConfig (Config_Window c) true (MinimumNumberOfCalls c)
        (FailureRateThreshold c) (SlowCallRateThreshold c)
        (SlowCallDurationThreshold c)
        (PermittedNumberOfCallsInHalfOpenState c) (WaitDurationInOpenState c)
        (FailOnResultPredicate c) (FailOnErrorPredicate c) (FailErrors c)
        (IgnoreErrors c)
  | WithWindow window =>
      mkConfig window (MetricsOnlyMode c) (MinimumNumberOfCalls c)
        (FailureRateThreshold c) (SlowCallRateThreshold c)
        (SlowCallDurationThreshold c)
        (PermittedNumberOfCallsInHalfOpenState c) (WaitDurationInOpenState c)
        (FailOnResultPredicate c) (FailOnErrorPredicate c) (FailErrors c)
        (IgnoreErrors c)
  | WithMinimumNumberOfCalls n =>
      mkConfig (Config_Window c) (MetricsOnlyMode c) n
        (FailureRateThreshold c) (SlowCallRateThreshold c)
        (SlowCallDurationThreshold c)
        (PermittedNumberOfCallsInHalfOpenState c) (WaitDurationInOpenState c)
        (FailOnResultPredicate c) (FailOnErrorPredicate c) (FailErrors c)
        (IgnoreErrors c)
  | WithFailureRateThreshold threshold =>
      mkConfig (Config_Window c) (MetricsOnlyMode c) (MinimumNumberOfCalls c)
        threshold (SlowCallRateThreshold c)
        (SlowCallDurationThreshold c)
        (PermittedNumberOfCallsInHalfOpenState c) (WaitDurationInOpenState c)
        (FailOnResultPredicate c) (FailOnErrorPredicate c) (FailErrors c)
        (IgnoreErrors c)
  | WithSlowCallRateThreshold threshold =>
      mkConfig (Config_Window c) (MetricsOnlyMode c) (MinimumNumberOfCalls c)
        (FailureRateThreshold c) threshold
        (SlowCallDurationThreshold c)
        (PermittedNumberOfCallsInHalfOpenState c) (WaitDurationInOpenState c)
        (FailOnResultPredicate c) (FailOnErrorPredicate c) (FailErrors c)
        (IgnoreErrors c)
  | WithSlowCallDurationThreshold duration =>
      mkConfig (Config_Window c) (MetricsOnlyMode c) (MinimumNumberOfCalls c)
        (FailureRateThreshold c) (SlowCallRateThreshold c)
        duration
        (PermittedNumberOfCallsInHalfOpenState c) (WaitDurationInOpenState c)
        (FailOnResultPredicate c) (FailOnErrorPredicate c) (FailErrors c)
        (IgnoreErrors c)
  | WithPermittedNumberOfCallsInHalfOpenState n =>
      mkConfig (Config_Window c) (MetricsOnlyMode c) (MinimumNumberOfCalls c)
        (FailureRateThreshold c) (SlowCallRateThreshold c)
        (SlowCallDurationThreshold c)
        n (WaitDurationInOpenState c)
        (FailOnResultPredicate c) (FailOnErrorPredicate c) (FailErrors c)
        (IgnoreErrors c)
  | WithWaitDurationInOpenState duration =>
      mkConfig (Config_Window c) (MetricsOnlyMode c) (MinimumNumberOfCalls c)
        (FailureRateThreshold c) (SlowCallRateThreshold c)
        (SlowCallDurationThreshold c)
        (PermittedNumberOfCallsInHalfOpenState c) duration
        (FailOnResultPredicate c) (FailOnErrorPredicate c) (FailErrors c)
        (IgnoreErrors c)
  | WithFailOnResultPredicate predicate =>
      mkConfig (Config_Window c) (MetricsOnlyMode c) (MinimumNumberOfCalls c)
        (FailureRateThreshold c) (SlowCallRateThreshold c)
        (SlowCallDurationThreshold c)
        (PermittedNumberOfCallsInHalfOpenState c) (WaitDurationInOpenState c)
        predicate (FailOnErrorPredicate c) (FailErrors c)
        (IgnoreErrors c)
  | WithFailOnErrorPredicate predicate =>
      mkConfig (Config_Window c) (MetricsOnlyMode c) (MinimumNumberOfCalls c)
        (FailureRateThreshold c) (SlowCallRateThreshold c)
        (SlowCallDurationThreshold c)
        (PermittedNumberOfCallsInHalfOpenState c) (WaitDurationInOpenState c)
        (FailOnResultPredicate c) predicate (FailErrors c)
        (IgnoreErrors c)
  | WithFailErrors errs =>
      mkConfig (Config_Window c) (MetricsOnlyMode c) (MinimumNumberOfCalls c)
        (FailureRateThreshold c) (SlowCallRateThreshold c)
        (SlowCallDurationThreshold c)
        (PermittedNumberOfCallsInHalfOpenState c) (WaitDurationInOpenState c)
        (FailOnResultPredicate c) (FailOnErrorPredicate c) errs
        (IgnoreErrors c)
  | WithIgnoreErrors errs =>
      mkConfig (Config_Window c) (MetricsOnlyMode c) (MinimumNumberOfCalls c)
        (FailureRateThreshold c) (SlowCallRateThreshold c)
        (SlowCallDurationThreshold c)
        (PermittedNumberOfCallsInHalfOpenState c) (WaitDurationInOpenState c)
        (FailOnResultPredicate c) (FailOnErrorPredicate c) (FailErrors c)
        errs
  end.

(** *** The state machine *)

Record circuitBreakerImpl : Type := mkBreaker {
  name : string;
  window : Window;
  config : Config;
  state : State;
  transitionTime : Time;
  halfOpenCompletedLeases : Z;
  halfOpenLeases : Z
}.

(** The zero [time.Time], from which clock readings are counted. *)
Definition zeroTime : Time := 0.

Definition New (name : string) (opts : list Option) : circuitBreakerImpl :=
  let config := fold_left (fun c opt => applyOption opt c) opts defaultConfig in
  mkBreaker name (Config_Window config) config StateClosed zeroTime 0 0.

Definition Name (cb : circuitBreakerImpl) : string := name cb.
Definition GetState (cb : circuitBreakerImpl) : State := state cb.

(** [setStateUnsafe]; [now] is the reading of its [time.Now()]. *)
Definition setStateUnsafe (now : Time) (st : State) (cb : circuitBreakerImpl)
  : circuitBreakerImpl :=
  if State_eqb (state cb) st then cb
  else
    let leases :=
      if State_eqb st StateHalfOpen
      then PermittedNumberOfCallsInHalfOpenState (config cb)
      else halfOpenLeases cb in
    let completed :=
      if State_eqb st StateHalfOpen then 0 else halfOpenCompletedLeases cb in
    mkBreaker (name cb) (Reset (window cb)) (config cb) st now completed leases.

(** [before]; [tSince] is the reading inside [time.Since] and [tNow] the one
    inside [setStateUnsafe]. The result is the returned error and the
    breaker as the call leaves it. *)
Definition before (tSince tNow : Time) (cb : circuitBreakerImpl)
  : error * circuitBreakerImpl :=
  let cb1 :=
    if State_eqb (state cb) StateOpen &&
       (WaitDurationInOpenState (config cb) <=?
          time_Since tSince (transitionTime cb))
    then setStateUnsafe tNow StateHalfOpen cb
    else cb in
  match state cb1 with
  | StateOpen => (Some ErrOpenState, cb1)
  | StateHalfOpen =>
      if halfOpenLeases cb1 <=? 0 then (Some ErrHalfOpenState, cb1)
      else
        (None,
         mkBreaker (name cb1) (window cb1) (config cb1) (state cb1)
           (transitionTime cb1) (halfOpenCompletedLeases cb1)
           (wrap64 (halfOpenLeases cb1 - 1)))
  | _ => (None, cb1)
  end.

Fixpoint matchesAny (e : error) (targets : list error) : bool :=
  match targets with
  | [] => false
  | target :: rest => if errors.Is e target then true else matchesAny e rest
  end.

Definition shouldFailCall (cb : circuitBreakerImpl) (result : any) (e : error)
  : bool :=
  match e with
  | Some x =>
      if match FailOnErrorPredicate (config cb) with
         | Some predicate => predicate x
         | None => false
         end
      then true
      else if matchesAny e (FailErrors (config cb)) then true
      else if matchesAny e (IgnoreErrors (config cb)) then false
      else true
  | None =>
      match FailOnResultPredicate (config cb) with
      | Some predicate => predicate result
      | None => false
      end
  end.

Definition areThresholdsExceededUnsafe (cb : circuitBreakerImpl) : bool :=
  match CallRates (window cb) with
  | (_, failureRate, slowRate) =>
      Qle_bool (FailureRateThreshold (config cb)) failureRate ||
      Qle_bool (SlowCallRateThreshold (config cb)) slowRate
  end.

Definition evaluateStateTransitionUnsafe (now : Time) (cb : circuitBreakerImpl)
  : circuitBreakerImpl :=
  match state cb with
  | StateClosed =>
      if (MinimumNumberOfCalls (config cb) <=? Size (window cb)) &&
         areThresholdsExceededUnsafe cb
      then setStateUnsafe now StateOpen cb
      else cb
  | StateHalfOpen =>
      if PermittedNumberOfCallsInHalfOpenState (config cb) <=?
         halfOpenCompletedLeases cb
      then
        if areThresholdsExceededUnsafe cb
        then setStateUnsafe now StateOpen cb
        else setStateUnsafe now StateClosed cb
      else cb
  | _ => cb
  end.

(** The classification at the head of [after]. *)
Definition classifyCall (cb : circuitBreakerImpl) (result : any) (e : error)
  (duration : Duration) : CallOutcome :=
  let isFailure := shouldFailCall cb result e in
  let isSlow := SlowCallDurationThreshold (config cb) <=? duration in
  if isFailure && isSlow then OutcomeSlowFailure
  else if isFailure then OutcomeFailure
  else if isSlow then OutcomeSlowSuccess
  else OutcomeSuccess.

(** [after]; [now] is the reading of [time.Now()] in [setStateUnsafe]. A
    panic of the window's [RecordOutcome] leaves [after] as a panic. *)
Definition after (now : Time) (result : any) (e : error) (duration : Duration)
  (cb : circuitBreakerImpl) : Completion circuitBreakerImpl :=
  let outcome := classifyCall cb result e duration in
  match RecordOutcome outcome (window cb) with
  | Panics => Panics
  | Returns w =>
      let completed :=
        if State_eqb (state cb) StateHalfOpen &&
           negb (IsCallNotPermittedError e)
        then wrap64 (halfOpenCompletedLeases cb + 1)
        else halfOpenCompletedLeases cb in
      Returns
        (evaluateStateTransitionUnsafe now
           (mkBreaker (name cb) w (config cb) (state cb) (transitionTime cb)
              completed (halfOpenLeases cb)))
  end.

(** *** The executor *)

(** What the user function does when it is invoked. *)
Inductive FnBehaviour : Type :=
| FnReturns (result : any) (e : error)
| FnPanics (recovered : any).

(** The clock readings and allocations of one [Execute] call, one per call
    site, and the state of the caller's context when [safeExecute] looks. *)
Record ExecEnv : Type := mkExecEnv {
  tSince : Time;
  tTransitionBefore : Time;
  tStart : Time;
  tEnd : Time;
  tTransitionAfter : Time;
  ctxErr : error;
  panicPtr : positive
}.

(** What [Execute] did, in order. *)
Inductive ExecEvent : Type :=
| CalledBefore
| InvokedFn
| CalledAfter (result : any) (e : error) (duration : Duration).

(** [safeExecute]: the deferred [recover] turns a panic of [fn] into a
    [*PanicError] whose [Cause] is the named result [err], still nil. *)
Definition safeExecute (env : ExecEnv) (zero : any) (fn : FnBehaviour)
  : any * error * list ExecEvent :=
  match ctxErr env with
  | Some e => (zero, Some e, [])
  | None =>
      match fn with
      | FnReturns result e => (result, e, [InvokedFn])
      | FnPanics _ => (zero, Some (PanicError (panicPtr env) None), [InvokedFn])
      end
  end.

Record ExecResult : Type := mkExecResult {
  exec_result : any;
  exec_err : error;
  exec_breaker : Completion circuitBreakerImpl;
  exec_events : list ExecEvent
}.

Definition Execute (env : ExecEnv) (zero : any) (cb : circuitBreakerImpl)
  (fn : FnBehaviour) : ExecResult :=
  match before (tSince env) (tTransitionBefore env) cb with
  | (Some e, cb1) => mkExecResult zero (Some e) (Returns cb1) [CalledBefore]
  | (None, cb1) =>
      let start := tStart env in
      match safeExecute env zero fn with
      | (result, e, evs) =>
          let duration := time_Since (tEnd env) start in
          mkExecResult result e
            (after (tTransitionAfter env) result e duration cb1)
            (CalledBefore :: evs ++ [CalledAfter result e duration])
      end
  end.

End Breaker.

Arguments mkConfig {any}.
Arguments mkBreaker {any}.
Arguments WithMetricsOnlyMode {any}.
Arguments WithWindow {any}.
Arguments WithMinimumNumberOfCalls {any}.
Arguments WithFailureRateThreshold {any}.
Arguments WithSlowCallRateThreshold {any}.
Arguments WithSlowCallDurationThreshold {any}.
Arguments WithPermittedNumberOfCallsInHalfOpenState {any}.
Arguments WithWaitDurationInOpenState {any}.
Arguments WithFailErrors {any}.
Arguments WithIgnoreErrors {any}.
Arguments New {any}.
Arguments before {any}.
Arguments after {any}.
Arguments setStateUnsafe {any}.
Arguments evaluateStateTransitionUnsafe {any}.
Arguments areThresholdsExceededUnsafe {any}.
Arguments shouldFailCall {any}.
Arguments classifyCall {any}.
Arguments safeExecute {any}.
Arguments Execute {any}.
Arguments FnReturns {any}.
Arguments FnPanics {any}.
Arguments CalledBefore {any}.
Arguments InvokedFn {any}.
Arguments CalledAfter {any}.

End circuitbreaker.

(** ** Package backoff *)

Module backoff.

(** The interface [Backoff]: what [Next] returns for an attempt ordinal, a
    [uint] in [0, 2^64). *)
Definition Backoff := Z -> Duration.

Definition wrapUint (z : Z) : Z := z mod 18446744073709551616.

Record Fixed : Type := mkFixed { Fixed_interval : Duration }.
Definition NewFixed (d : Duration) : Fixed := mkFixed d.
Definition Fixed_Next (f : Fixed) (_ : Z) : Duration := Fixed_interval f.

Record Linear : Type := mkLinear { Linear_interval : Duration }.
Definition NewLinear (interval : Duration) : Linear := mkLinear interval.
Definition Linear_Next (l : Linear) (attempt : Z) : Duration :=
  wrap64 (wrap64 attempt * Linear_interval l).










End backoff.

(** ** Package retry *)

Module retry.

Import circuitbreaker.

Definition ErrResultPredicateRetry : err :=
  errorString 4 "result predicate triggered retry".

(** The string-typed enumerations of the metrics file. *)
Definition OutcomeStatus := string.
Definition OutcomeStatusSuccess : OutcomeStatus := "success"%string.
Definition OutcomeStatusError : OutcomeStatus := "error"%string.

Definition OutcomeFailureReason := string.
Definition OutcomeFailureReasonExhausted : OutcomeFailureReason := "exhausted"%string.
Definition OutcomeFailureReasonTimeout : OutcomeFailureReason := "timeout"%string.
Definition OutcomeFailureReasonCanceled : OutcomeFailureReason := "canceled"%string.
Definition OutcomeFailureReasonNonRetryable : OutcomeFailureReason :=
  "non_retryable"%string.

Definition AttemptStatus := string.
Definition AttemptStatusSuccess : AttemptStatus := "success"%string.
Definition AttemptStatusError : AttemptStatus := "error"%string.

Definition AttemptFailureReason := string.
Definition AttemptFailureReasonError : AttemptFailureReason := "error"%string.
Definition AttemptFailureReasonTimeout : AttemptFailureReason := "timeout"%string.
Definition AttemptFailureReasonCanceled : AttemptFailureReason := "canceled"%string.
Definition AttemptFailureReasonResult : AttemptFailureReason := "result"%string.

Record Attempt : Type := mkAttempt {
  Attempt_PolicyName : string;
  Number : Z;
  Timestamp : Time;
  Attempt_Duration : Duration;
  Attempt_Status : AttemptStatus;
  Attempt_FailureReason : AttemptFailureReason;
  Attempt_Error : error;
  Retryable : bool
}.

Record Outcome : Type := mkOutcome {
  Outcome_PolicyName : string;
  TotalAttempts : Z;
  TotalDuration : Duration;
  Outcome_Status : OutcomeStatus;
  Outcome_FailureReason : OutcomeFailureReason
}.

Record RetryError : Type := mkRetryError {
  Attempts : list Attempt;
  TerminationError : error
}.

(** The method [Unwrap] of [RetryError]. *)
Definition RetryError_Unwrap (e : RetryError) : error :=
  match TerminationError e with
  | Some t => Some t
  | None =>
      match Attempts e with
      | [] => None
      | a :: rest => Attempt_Error (last rest a)
      end
  end.

(** A metrics reporter is known by its identity; what it receives is the
    sequence of calls made on it. *)
Definition Metrics := positive.

Inductive MetricsCall : Type :=
| RecordAttempt (result : Attempt)
| RecordOutcome (outcome : Outcome)
| RecordBackoff (policyName : string) (attempt : Z) (duration : Duration).

Section Retry.

(** The result type [T] of the user function. *)
Variable T : Type.

Record Policy : Type := mkPolicy {
  name : string;
  metrics : option Metrics;
  maxAttempts : Z;
  attemptTimeout : Duration;
  backoff : option backoff.Backoff;
  retryOnResultPredicate : option (T -> bool);
  retryOnErrorPredicate : option (err -> bool);
  retryErrors : list error;
  ignoreErrors : list error
}.

Inductive Option : Type :=
| WithMetrics (m : option Metrics)
| WithMaxAttempts (attempts : Z)
| WithAttemptTimeout (timeout : Duration)
| WithBackoff (f : option backoff.Backoff)
| WithRetryOnResultPredicate (predicate : option (T -> bool))
| WithRetryOnErrorPredicate (predicate : option (err -> bool))
| WithRetryErrors (errs : list error)
| WithIgnoreErrors (errs : list error).

(** The call of an option on the policy under construction. *)
Definition applyOption (opt : Option) (p : Policy) : Policy :=
  match opt with
  | WithMetrics m =>
      mkPolicy (name p) m (maxAttempts p) (attemptTimeout p) (backoff p)
        (retryOnResultPredicate p) (retryOnErrorPredicate p) (retryErrors p)
        (ignoreErrors p)
  | WithMaxAttempts attempts =>
      mkPolicy (name p) (metrics p) attempts (attemptTimeout p) (backoff p)
        (retryOnResultPredicate p) (retryOnErrorPredicate p) (retryErrors p)
        (ignoreErrors p)
  | WithAttemptTimeout timeout =>
      mkPolicy (name p) (metrics p) (maxAttempts p) timeout (backoff p)
        (retryOnResultPredicate p) (retryOnErrorPredicate p) (retryErrors p)
        (ignoreErrors p)
  | WithBackoff f =>
      mkPolicy (name p) (metrics p) (maxAttempts p) (attemptTimeout p) f
        (retryOnResultPredicate p) (retryOnErrorPredicate p) (retryErrors p)
        (ignoreErrors p)
  | WithRetryOnResultPredicate predicate =>
      mkPolicy (name p) (metrics p) (maxAttempts p) (attemptTimeout p)
        (backoff p) predicate (retryOnErrorPredicate p) (retryErrors p)
        (ignoreErrors p)
  | WithRetryOnErrorPredicate predicate =>
      mkPolicy (name p) (metrics p) (maxAttempts p) (attemptTimeout p)
        (backoff p) (retryOnResultPredicate p) predicate (retryErrors p)
        (ignoreErrors p)
  | WithRetryErrors errs =>
      mkPolicy (name p) (metrics p) (maxAttempts p) (attemptTimeout p)
        (backoff p) (retryOnResultPredicate p) (retryOnErrorPredicate p) errs
        (ignoreErrors p)
  | WithIgnoreErrors errs =>
      mkPolicy (name p) (metrics p) (maxAttempts p) (attemptTimeout p)
        (backoff p) (retryOnResultPredicate p) (retryOnErrorPredicate p)
        (retryErrors p) errs
  end.

Record ValidationError : Type := mkValidationError {
  Field : string;
  Message : string
}.

Definition Validate (p : Policy) : option ValidationError :=
  if maxAttempts p <? 1
  then Some (mkValidationError "maxAttempts" "must be at least 1")
  else
    match backoff p with
    | None => Some (mkValidationError "backoff" "backoff must be set")
    | Some _ => None
    end.

Definition NewPolicy (name : string) (options : list Option)
  : Policy + ValidationError :=
  let b := backoff.NewLinear (100 * Millisecond) in
  let policy :=
    fold_left (fun p option => applyOption option p) options
      (mkPolicy name None 3 0 (Some (backoff.Linear_Next b)) None None [] [])
  in
  match Validate policy with
  | Some e => inr e
  | None => inl policy
  end.

Definition NewCircuitAwarePolicy (name : string) (opts : list Option)
  : Policy + ValidationError :=
  let baseOpts :=
    [WithIgnoreErrors [Some ErrOpenState; Some ErrHalfOpenState]] in
  NewPolicy name (baseOpts ++ opts).

(** [metricsReporter]; [global] is what [GetGlobalMetrics()] returns. *)
Definition metricsReporter (global : Metrics) (p : Policy) : Metrics :=
  match metrics p with
  | Some m => m
  | None => global
  end.

(** The two range loops of [ShouldRetryError]. *)
Fixpoint matchesAny (e : error) (targets : list error) : bool :=
  match targets with
  | [] => false
  | target :: rest => if errors.Is e target then true else matchesAny e rest
  end.

Definition ShouldRetryError (p : Policy) (e : error) : bool :=
  match e with
  | None => false
  | Some x =>
      match retryOnErrorPredicate p with
      | Some predicate => predicate x
      | None =>
          if matchesAny e (ignoreErrors p) then false
          else if 0 <? Z.of_nat (List.length (retryErrors p))
               then (if matchesAny e (retryErrors p) then true else false)
               else true
      end
  end.

(** *** The engine *)

(** What one [Execute] call meets, indexed by the attempt number: the
    state of the attempt's context when [safeExecute] looks at it, what the
    user function returns when it is invoked, what the waiter answers after
    the attempt, and the clock readings; and the number of bytes that the
    run-time system can still obtain when [execute] allocates. *)
Record Env : Type := mkEnv {
  zero : T;
  globalMetrics : Metrics;
  overallStart : Time;
  overallEnd : Time;
  attemptStart : Z -> Time;
  attemptEnd : Z -> Time;
  attemptCtxErr : Z -> error;
  fn : Z -> T * error;
  wait : Z -> Duration -> error;
  freeMemory : Z
}.

(** [make([]Attempt, 0, n)], the first statement of [execute] that can
    fail, on a 64-bit platform. An [Attempt] takes 112 bytes (three strings,
    an interface value, a [time.Time], two words and a padded bool). The
    run-time system panics (cap out of range) when [n] is negative or the
    backing array of [n] elements exceeds [maxAlloc], and it ends the
    program (out of memory) when the array exceeds what the memory has
    left; in both cases [execute] does not return, and [Panics] stands for
    both. *)
Definition sizeofAttempt : Z := 112.
Definition maxAlloc : Z := 281474976710656.

Definition makeAttempts (env : Env) (n : Z) : Completion (list Attempt) :=
  if (0 <=? n) && (n * sizeofAttempt <=? maxAlloc) &&
     (n * sizeofAttempt <=? freeMemory env)
  then Returns []
  else Panics.

Definition safeExecute (env : Env) (attemptNum : Z) : T * error :=
  match attemptCtxErr env attemptNum with
  | Some e => (zero env, Some e)
  | None => fn env attemptNum
  end.

Definition classifyAttemptFailure (e : error) : AttemptFailureReason :=
  match e with
  | None => EmptyString
  | Some _ =>
      if errors.Is e (Some context.DeadlineExceeded)
      then AttemptFailureReasonTimeout
      else if errors.Is e (Some context.Canceled)
           then AttemptFailureReasonCanceled
           else AttemptFailureReasonError
  end.

Definition classifyContextError (e : error) : OutcomeFailureReason :=
  match e with
  | None => EmptyString
  | Some _ =>
      if errors.Is e (Some context.DeadlineExceeded)
      then OutcomeFailureReasonTimeout
      else OutcomeFailureReasonCanceled
  end.

Record attemptOutcome : Type := mkAttemptOutcome {
  result : T;
  attempt : Attempt;
  success : bool;
  retryable : bool
}.

Definition executeAttempt (env : Env) (p : Policy) (attemptNum : Z)
  : attemptOutcome :=
  let attemptStart := attemptStart env attemptNum in
  match safeExecute env attemptNum with
  | (attemptResult, attemptErr) =>
      let duration := time_Since (attemptEnd env attemptNum) attemptStart in
      let shouldRetryResult :=
        match attemptErr, retryOnResultPredicate p with
        | None, Some predicate => predicate attemptResult
        | _, _ => false
        end in
      if match attemptErr with None => true | Some _ => false end &&
         negb shouldRetryResult
      then
        mkAttemptOutcome attemptResult
          (mkAttempt (name p) attemptNum attemptStart duration
             AttemptStatusSuccess EmptyString None false)
          true false
      else if shouldRetryResult
      then
        mkAttemptOutcome (zero env)
          (mkAttempt (name p) attemptNum attemptStart duration
             AttemptStatusError AttemptFailureReasonResult
             (Some ErrResultPredicateRetry) true)
          false true
      else
        let retryable := ShouldRetryError p attemptErr in
        mkAttemptOutcome (zero env)
          (mkAttempt (name p) attemptNum attemptStart duration
             AttemptStatusError (classifyAttemptFailure attemptErr)
             attemptErr retryable)
          false retryable
  end.

(** The locals of [execute] when its loop is left, with the calls made on
    the reporter so far. A call of [Next] on a nil backoff panics. *)
Record LoopExit : Type := mkLoopExit {
  returned : Completion (T * option RetryError);
  exit_outcome : Outcome;
  exit_attemptCount : Z;
  exit_calls : list MetricsCall
}.

Definition withStatus (o : Outcome) (s : OutcomeStatus) : Outcome :=
  mkOutcome (Outcome_PolicyName o) (TotalAttempts o) (TotalDuration o) s
    (Outcome_FailureReason o).

Definition withFailureReason (o : Outcome) (r : OutcomeFailureReason)
  : Outcome :=
  mkOutcome (Outcome_PolicyName o) (TotalAttempts o) (TotalDuration o)
    (Outcome_Status o) r.

(** The [for] loop of [execute]; [fuel] bounds the number of iterations and
    [None] means that it did not suffice. *)
Fixpoint loop (env : Env) (p : Policy) (fuel : nat) (attemptCount : Z)
  (retryErr : RetryError) (outcome : Outcome) (calls : list MetricsCall)
  : option LoopExit :=
  match fuel with
  | O => None
  | S fuel' =>
      let ao := executeAttempt env p attemptCount in
      let calls := calls ++ [RecordAttempt (attempt ao)] in
      if success ao
      then
        Some (mkLoopExit (Returns (result ao, None))
                (withStatus outcome OutcomeStatusSuccess) attemptCount calls)
      else
        let retryErr :=
          mkRetryError (Attempts retryErr ++ [attempt ao])
            (TerminationError retryErr) in
        if negb (retryable ao)
        then
          Some (mkLoopExit (Returns (zero env, Some retryErr))
                  (withFailureReason outcome OutcomeFailureReasonNonRetryable)
                  attemptCount calls)
        else if maxAttempts p <=? attemptCount
        then
          Some (mkLoopExit (Returns (zero env, Some retryErr))
                  (withFailureReason outcome OutcomeFailureReasonExhausted)
                  attemptCount calls)
        else
          match backoff p with
          | None => Some (mkLoopExit Panics outcome attemptCount calls)
          | Some b =>
              let backoffDuration := b (backoff.wrapUint attemptCount) in
              match wait env attemptCount backoffDuration with
              | Some waitErr =>
                  Some (mkLoopExit
                          (Returns
                             (zero env,
                              Some (mkRetryError (Attempts retryErr)
                                      (Some waitErr))))
                          (withFailureReason outcome
                             (classifyContextError (Some waitErr)))
                          attemptCount calls)
              | None =>
                  let attemptCount := wrap64 (attemptCount + 1) in
                  loop env p fuel' attemptCount retryErr outcome
                    (calls ++
                     [RecordBackoff (name p) attemptCount backoffDuration])
              end
          end
  end.

Record ExecuteResult : Type := mkExecuteResult {
  exec_returned : Completion (T * option RetryError);
  exec_reporter : Metrics;
  exec_calls : list MetricsCall
}.

(** The deferred function of [execute]. *)
Definition recordFinalOutcome (env : Env) (x : LoopExit) : list MetricsCall :=
  exit_calls x ++
  [RecordOutcome
     (mkOutcome (Outcome_PolicyName (exit_outcome x)) (exit_attemptCount x)
        (time_Since (overallEnd env) (overallStart env))
        (Outcome_Status (exit_outcome x))
        (Outcome_FailureReason (exit_outcome x)))].

(** [execute]. The allocation of [retryErr.Attempts] comes before the
    [defer]: when it fails nothing has been reported and nothing will be. *)
Definition execute_fuel (env : Env) (p : Policy) (fuel : nat)
  : option ExecuteResult :=
  match makeAttempts env (maxAttempts p) with
  | Panics =>
      Some (mkExecuteResult Panics (metricsReporter (globalMetrics env) p) [])
  | Returns attempts =>
      let retryErr := mkRetryError attempts None in
      let outcome := mkOutcome (name p) 0 0 OutcomeStatusError EmptyString in
      match loop env p fuel 1 retryErr outcome [] with
      | None => None
      | Some x =>
          Some (mkExecuteResult (returned x)
                  (metricsReporter (globalMetrics env) p)
                  (recordFinalOutcome env x))
      end
  end.

(** [Execute]: [execute] with the context waiter, whose answers are
    [wait env]. The loop runs [maxAttempts] times at most, once when
    [maxAttempts] is below one. *)
Definition Execute (env : Env) (p : Policy) : option ExecuteResult :=
  execute_fuel env p (Z.to_nat (Z.max 1 (maxAttempts p))).

End Retry.

Arguments mkPolicy {T}.
Arguments mkEnv {T}.
Arguments name {T}.
Arguments metrics {T}.
Arguments maxAttempts {T}.
Arguments attemptTimeout {T}.
Arguments backoff {T}.
Arguments retryOnResultPredicate {T}.
Arguments retryOnErrorPredicate {T}.
Arguments retryErrors {T}.
Arguments ignoreErrors {T}.
Arguments WithMetrics {T}.
Arguments WithMaxAttempts {T}.
Arguments WithAttemptTimeout {T}.
Arguments WithBackoff {T}.
Arguments WithRetryOnResultPredicate {T}.
Arguments WithRetryOnErrorPredicate {T}.
Arguments WithRetryErrors {T}.
Arguments WithIgnoreErrors {T}.
Arguments applyOption {T}.
Arguments Validate {T}.
Arguments NewPolicy {T}.
Arguments NewCircuitAwarePolicy {T}.
Arguments ShouldRetryError {T}.
Arguments executeAttempt {T}.
Arguments safeExecute {T}.
Arguments loop {T}.
Arguments execute_fuel {T}.
Arguments Execute {T}.
Arguments recordFinalOutcome {T}.
Arguments metricsReporter {T}.
Arguments zero {T}.
Arguments globalMetrics {T}.
Arguments overallStart {T}.
Arguments overallEnd {T}.
Arguments attemptStart {T}.
Arguments attemptEnd {T}.
Arguments attemptCtxErr {T}.
Arguments fn {T}.
Arguments wait {T}.
Arguments freeMemory {T}.
Arguments makeAttempts {T}.
Arguments result {T}.
Arguments attempt {T}.
Arguments success {T}.
Arguments retryable {T}.
Arguments mkAttemptOutcome {T}.
Arguments mkLoopExit {T}.
Arguments returned {T}.
Arguments exit_outcome {T}.
Arguments exit_attemptCount {T}.
Arguments exit_calls {T}.
Arguments mkExecuteResult {T}.
Arguments exec_returned {T}.
Arguments exec_reporter {T}.
Arguments exec_calls {T}.

End retry.

(** * Specification vocabulary *)

Module window_spec.
Import circuitbreaker.

Definition isSuccessSlot (v : option CallOutcome) : bool :=
  match v with
  | Some OutcomeSuccess | Some OutcomeSlowSuccess => true
  | _ => false
  end.

Definition isFailureSlot (v : option CallOutcome) : bool :=
  match v with
  | Some OutcomeFailure | Some OutcomeSlowFailure => true
  | _ => false
  end.

Definition isSlowSlot (v : option CallOutcome) : bool :=
  match v with
  | Some OutcomeSlowSuccess | Some OutcomeSlowFailure => true
  | _ => false
  end.

Definition isFilledSlot (v : option CallOutcome) : bool :=
  match v with
  | Some _ => true
  | None => false
  end.

Fixpoint countSlots (f : option CallOutcome -> bool) (r : Ring) : Z :=
  match r with
  | [] => 0
  | v :: rest => (if f v then 1 else 0) + countSlots f rest
  end.

(** The counters of a window are the counts of its slots. *)
Definition WindowInv (capacity : Z) (w : CountWindow) : Prop :=
  ring_Len (ring w) = capacity /\
  successCount w = countSlots isSuccessSlot (ring w) /\
  failureCount w = countSlots isFailureSlot (ring w) /\
  slowCallCount w = countSlots isSlowSlot (ring w).

Definition rateInRange (q : Q) : Prop := (0 <= q /\ q <= 100)%Q.

End window_spec.

Module breaker_spec.
Import circuitbreaker.

(** One completed call, as [after] receives it, with the clock reading of
    the transition it may cause. *)
Record CompletedCall (any : Type) : Type := mkCompletedCall {
  call_result : any;
  call_err : error;
  call_duration : Duration;
  call_now : Time
}.
Arguments mkCompletedCall {any}.
Arguments call_result {any}.
Arguments call_err {any}.
Arguments call_duration {any}.
Arguments call_now {any}.

(** [after] on a sequence of completed calls. *)
Fixpoint afterAll {any : Type} (calls : list (CompletedCall any))
  (cb : circuitBreakerImpl any) : Completion (circuitBreakerImpl any) :=
  match calls with
  | [] => Returns cb
  | c :: rest =>
      bindC (after (call_now c) (call_result c) (call_err c)
               (call_duration c) cb)
        (afterAll rest)
  end.

(** The thresholds test of the transition out of Closed, on a window. *)
Definition thresholdsExceeded {any : Type} (c : Config any) (w : Window)
  : Prop :=
  match CallRates w with
  | (_, failureRate, slowRate) =>
      (FailureRateThreshold any c <= failureRate)%Q \/
      (SlowCallRateThreshold any c <= slowRate)%Q
  end.

End breaker_spec.

Module retry_spec.
Import retry.

(** [e] matches some entry of [targets] through its unwrap chain. *)
Definition matchesSome (e : error) (targets : list error) : Prop :=
  exists target, In target targets /\ errors.Is e target = true.

Definition isWithRetryErrors {T : Type} (opt : Option T) : bool :=
  match opt with
  | WithRetryErrors _ => true
  | _ => false
  end.

Definition isWithIgnoreErrors {T : Type} (opt : Option T) : bool :=
  match opt with
  | WithIgnoreErrors _ => true
  | _ => false
  end.

Section Runs.

Context {T : Type}.
Variables (env : Env T) (p : Policy T) (b : backoff.Backoff).

(** The record of attempt [i]. *)
Definition attemptOf (i : Z) : Attempt := attempt (executeAttempt env p i).

(** Attempt [i] fails, is retryable and not the last one allowed, and the
    wait after it elapses: the loop goes on to attempt [i + 1]. *)
Definition continues (i : Z) : Prop :=
  success (executeAttempt env p i) = false /\
  retryable (executeAttempt env p i) = true /\
  i < maxAttempts p /\
  wait env i (b (backoff.wrapUint i)) = None.

(** Attempts [1] to [k] all continue: attempt [k + 1] is reached. *)
Definition reaches (k : nat) : Prop :=
  forall i : nat, (1 <= i <= k)%nat -> continues (Z.of_nat i).

(** The records of attempts [1] to [k]. *)
Definition prefixAttempts (k : nat) : list Attempt :=
  map (fun i => attemptOf (Z.of_nat i)) (seq 1 k).

(** The calls on the reporter while attempts [1] to [k] continue. *)
Definition prefixCalls (k : nat) : list MetricsCall :=
  flat_map
    (fun i =>
       [RecordAttempt (attemptOf (Z.of_nat i));
        RecordBackoff (name p) (Z.of_nat i + 1)
          (b (backoff.wrapUint (Z.of_nat i)))])
    (seq 1 k).

End Runs.

Definition isRecordOutcome (c : MetricsCall) : bool :=
  match c with
  | RecordOutcome _ => true
  | _ => false
  end.

Definition isRecordAttempt (c : MetricsCall) : bool :=
  match c with
  | RecordAttempt _ => true
  | _ => false
  end.

(** The number of calls of one kind in a sequence of calls. *)
Definition countCalls (kind : MetricsCall -> bool) (calls : list MetricsCall)
  : nat :=
  List.length (filter kind calls).


(** A policy as [NewPolicy] returns it, with [maxAttempts] an [int]. *)
Definition validPolicy {T : Type} (p : Policy T) : Prop :=
  Validate p = None /\ in_int64 (maxAttempts p).

(** The allocation that [execute] starts with succeeds: [maxAttempts] is
    not negative and the slice of that capacity fits in the memory. *)
Definition allocates {T : Type} (env : Env T) (p : Policy T) : Prop :=
  makeAttempts env (maxAttempts p) = Returns [].


End retry_spec.

(** Concrete runs on which the properties below are exercised. *)
Module scenarios.
Import retry.

Definition E1 : err := errorString 11 "error1".
Definition E2 : err := errorString 12 "error2".
Definition wrapped (e : err) : error :=
  Some (wrapError 13 "call failed" e).
Definition linear : option backoff.Backoff :=
  Some (backoff.Linear_Next (backoff.NewLinear (100 * Millisecond))).

Definition boom : error := Some (errorString 20 "x").
Definition fixed : backoff.Backoff :=
  backoff.Fixed_Next (backoff.NewFixed (10 * Millisecond)).
Definition policy3 : Policy Z :=
  mkPolicy "p" None 3 0 (Some fixed) None None [] [].

(** The function always fails and no wait is interrupted. *)
Definition failing : Env Z :=
  mkEnv 0 1%positive 0 100 (fun n => 10 * n) (fun n => 10 * n + 5)
    (fun _ => None) (fun _ => (0, boom)) (fun _ _ => None) 1048576.

(** The function always fails and the second wait is interrupted. *)
Definition canceled : Env Z :=
  mkEnv 0 1%positive 0 100 (fun n => 10 * n) (fun n => 10 * n + 5)
    (fun _ => None) (fun _ => (0, boom))
    (fun n _ => if n =? 2 then Some context.Canceled else None) 1048576.

(** The function returns the value bad once, then the value good, and the
    result predicate selects bad for a retry. *)
Definition isBad : string -> bool := String.eqb "bad".
Definition policyBad : Policy string :=
  mkPolicy "p" None 3 0 (Some fixed) (Some isBad) None [] [].
Definition badThenGood : Env string :=
  mkEnv EmptyString 1%positive 0 100 (fun n => 10 * n) (fun n => 10 * n + 5)
    (fun _ => None)
    (fun n => if n =? 1 then ("bad"%string, None) else ("good"%string, None))
    (fun _ _ => None) 1048576.

End scenarios.

(** * Further vocabulary *)

Module window_more.
Import circuitbreaker.

(** Recording a sequence of outcomes, oldest first. *)
Definition recordAll (outcomes : list CallOutcome) (w : CountWindow)
  : Completion CountWindow :=
  applyOps (map OpRecord outcomes) w.

(** The [n] most recent entries of a sequence that has its oldest first. *)
Definition mostRecent {A : Type} (n : nat) (l : list A) : list A :=
  skipn (List.length l - n) l.

(** The ring of a window of [n] slots that has recorded [outcomes] since
    it was created or reset: the slots still empty, then the outcomes it
    keeps, oldest first. *)
Definition ringAfter (n : nat) (outcomes : list CallOutcome) : Ring :=
  repeat None (n - List.length outcomes) ++
  map Some (mostRecent n outcomes).

End window_more.

Module breaker_more.
Import circuitbreaker breaker_spec.

(** [before] on a sequence of calls, each with its two clock readings; the
    result is the errors returned, in order, and the breaker at the end. *)
Fixpoint beforeAll {any : Type} (readings : list (Time * Time))
  (cb : circuitBreakerImpl any) : list error * circuitBreakerImpl any :=
  match readings with
  | [] => ([], cb)
  | (tSince, tNow) :: rest =>
      match before tSince tNow cb with
      | (e, cb1) =>
          match beforeAll rest cb1 with
          | (es, cb2) => (e :: es, cb2)
          end
      end
  end.

(** The two hooks, as the executor and other callers use them. *)
Inductive BreakerOp (any : Type) : Type :=
| OpBefore (tSince tNow : Time)
| OpAfter (call : CompletedCall any).
Arguments OpBefore {any}.
Arguments OpAfter {any}.

Definition applyBreakerOp {any : Type} (op : BreakerOp any)
  (cb : circuitBreakerImpl any) : Completion (circuitBreakerImpl any) :=
  match op with
  | OpBefore tSince tNow => Returns (snd (before tSince tNow cb))
  | OpAfter c =>
      after (call_now c) (call_result c) (call_err c) (call_duration c) cb
  end.

Fixpoint applyBreakerOps {any : Type} (ops : list (BreakerOp any))
  (cb : circuitBreakerImpl any) : Completion (circuitBreakerImpl any) :=
  match ops with
  | [] => Returns cb
  | op :: rest => bindC (applyBreakerOp op cb) (applyBreakerOps rest)
  end.

(** [e] matches some entry of [targets] through its unwrap chain. *)
Definition matchesOneOf (e : error) (targets : list error) : Prop :=
  exists target, In target targets /\ errors.Is e target = true.

End breaker_more.

(** Concrete breakers on which the properties of the state machine are
    exercised. *)
Module breaker_scenarios.
Import circuitbreaker breaker_spec breaker_more.

Definition window4 : Window := CountWindow_Window (NewCountWindow 4).

(** The window of capacity 4 that holds one outcome. *)
Definition holding (o : CallOutcome) (s f sl : Z) : Window :=
  CountWindow_Window (mkCountWindow [None; None; None; Some o] s f sl).

(** HalfOpen, nine of the ten permitted calls completed. *)
Definition halfOpenNine : circuitBreakerImpl unit :=
  mkBreaker "cb" window4 (defaultConfig unit) StateHalfOpen 100 9 0.

(** HalfOpen, no call completed, three leases left. *)
Definition halfOpenThree : circuitBreakerImpl unit :=
  mkBreaker "cb" window4 (defaultConfig unit) StateHalfOpen 100 0 3.

Definition openBreaker : circuitBreakerImpl unit :=
  mkBreaker "cb" window4 (defaultConfig unit) StateOpen 100 0 0.

Definition failedCall : CompletedCall unit :=
  mkCompletedCall tt (Some (errorString 9 "boom")) 0 200.

Definition goodCall : CompletedCall unit :=
  mkCompletedCall tt None 0 200.

(** A breaker that fails on error1 and ignores error1 and error2. *)
Definition listsBreaker : circuitBreakerImpl unit :=
  mkBreaker "cb" window4
    (applyOption unit
       (WithIgnoreErrors [Some scenarios.E1; Some scenarios.E2])
       (applyOption unit (WithFailErrors [Some scenarios.E1])
          (defaultConfig unit)))
    StateClosed 0 0 0.

End breaker_scenarios.

Module executor_more.
Import circuitbreaker.




End executor_more.

Module policy_more.
Import retry.

Definition isWithMaxAttempts {T : Type} (opt : Option T) : bool :=
  match opt with
  | WithMaxAttempts _ => true
  | _ => false
  end.

Definition isWithBackoff {T : Type} (opt : Option T) : bool :=
  match opt with
  | WithBackoff _ => true
  | _ => false
  end.

Definition isWithRetryOnErrorPredicate {T : Type} (opt : Option T) : bool :=
  match opt with
  | WithRetryOnErrorPredicate _ => true
  | _ => false
  end.

(** The backoff a policy has when no option sets one. *)
Definition defaultBackoff : backoff.Backoff :=
  backoff.Linear_Next (backoff.NewLinear (100 * Millisecond)).

End policy_more.

Module engine_more.
Import retry retry_spec.


(** The outcome that [execute] starts from. *)
Definition initialOutcome {T : Type} (p : Policy T) : Outcome :=
  mkOutcome (name p) 0 0 OutcomeStatusError EmptyString.

Section Shape.

Context {T : Type}.
Variables (env : Env T) (p : Policy T) (b : backoff.Backoff).

(** The loop was left in attempt [j + 1], after [j] attempts that
    continued: what it returned, what it called on the reporter and the
    outcome it prepared, for each of the four ways out. *)
Definition exitShape (j : nat) (x : LoopExit T) : Prop :=
  exit_calls x
  = prefixCalls env p b j ++ [RecordAttempt (attemptOf env p (Z.of_nat (S j)))]
  /\
  exit_attemptCount x = Z.of_nat (S j) /\
  Outcome_PolicyName (exit_outcome x) = name p /\
  match returned x with
  | Returns (v, None) =>
      success (executeAttempt env p (Z.of_nat (S j))) = true /\
      v = result (executeAttempt env p (Z.of_nat (S j))) /\
      Outcome_Status (exit_outcome x) = OutcomeStatusSuccess /\
      Outcome_FailureReason (exit_outcome x) = EmptyString
  | Returns (v, Some retryErr) =>
      success (executeAttempt env p (Z.of_nat (S j))) = false /\
      v = zero env /\
      Attempts retryErr = prefixAttempts env p (S j) /\
      Outcome_Status (exit_outcome x) = OutcomeStatusError /\
      ((retryable (executeAttempt env p (Z.of_nat (S j))) = false /\
        TerminationError retryErr = None /\
        Outcome_FailureReason (exit_outcome x)
        = OutcomeFailureReasonNonRetryable) \/
       (retryable (executeAttempt env p (Z.of_nat (S j))) = true /\
        maxAttempts p <= Z.of_nat (S j) /\
        TerminationError retryErr = None /\
        Outcome_FailureReason (exit_outcome x)
        = OutcomeFailureReasonExhausted) \/
       (retryable (executeAttempt env p (Z.of_nat (S j))) = true /\
        Z.of_nat (S j) < maxAttempts p /\
        exists waitErr,
          wait env (Z.of_nat (S j)) (b (backoff.wrapUint (Z.of_nat (S j))))
          = Some waitErr /\
          TerminationError retryErr = Some waitErr /\
          Outcome_FailureReason (exit_outcome x)
          = classifyContextError (Some waitErr)))
  | Panics => False
  end.

End Shape.

(** The methods [All] and [Last] of [RetryError]. *)
Definition RetryError_All (e : RetryError) : list error :=
  map Attempt_Error (Attempts e).

Definition RetryError_Last (e : RetryError) : error := RetryError_Unwrap e.

End engine_more.

(** More concrete runs of the engine. *)
Module engine_scenarios.
Import retry scenarios.

(** Five attempts allowed, the error of [failing] ignored. *)
Definition policyIgnore : Policy Z :=
  mkPolicy "p" None 5 0 (Some fixed) None None [] [boom].

(** A policy that NewPolicy would refuse: no backoff. *)
Definition policyNoBackoff : Policy Z :=
  mkPolicy "p" None 3 0 None None None [] [].

(** The result of [failing] under [policy3]: three attempts, exhausted. *)
Definition exhaustedResult : ExecuteResult Z :=
  mkExecuteResult
    (Returns
       (0, Some (mkRetryError (retry_spec.prefixAttempts failing policy3 3)
                   None)))
    1%positive
    (retry_spec.prefixCalls failing policy3 fixed 2 ++
     [RecordAttempt (retry_spec.attemptOf failing policy3 3);
      RecordOutcome
        (mkOutcome "p" 3 100 OutcomeStatusError
           OutcomeFailureReasonExhausted)]).

End engine_scenarios.

(** *** InMemoryMetrics of package retry *)

Module inmemory.
Import retry.

(** The counters, each an [atomic.Int64]. *)
Record InMemoryMetrics : Type := mkInMemoryMetrics {
  attemptsTotal : Z;
  attemptsSuccess : Z;
  attemptsFailure : Z;
  attemptsDurationTotal : Z;
  outcomeTotal : Z;
  outcomeSuccess : Z;
  outcomeFailure : Z;
  outcomeDurationTotal : Z;
  backoffDurationTotal : Z
}.

Definition NewInMemoryMetrics : InMemoryMetrics :=
  mkInMemoryMetrics 0 0 0 0 0 0 0 0 0.

(** [time.Duration.Milliseconds]. *)
Definition Milliseconds (d : Duration) : Z := Z.quot d 1000000.

Definition Attempt_IsSuccess (a : Attempt) : bool :=
  String.eqb (Attempt_Status a) AttemptStatusSuccess.

Definition Outcome_IsSuccess (o : Outcome) : bool :=
  String.eqb (Outcome_Status o) OutcomeStatusSuccess.

Definition InMemory_RecordAttempt (a : Attempt) (m : InMemoryMetrics)
  : InMemoryMetrics :=
  mkInMemoryMetrics
    (wrap64 (attemptsTotal m + 1))
    (if Attempt_IsSuccess a then wrap64 (attemptsSuccess m + 1)
     else attemptsSuccess m)
    (if Attempt_IsSuccess a then attemptsFailure m
     else wrap64 (attemptsFailure m + 1))
    (wrap64 (attemptsDurationTotal m + Milliseconds (Attempt_Duration a)))
    (outcomeTotal m) (outcomeSuccess m) (outcomeFailure m)
    (outcomeDurationTotal m) (backoffDurationTotal m).

Definition InMemory_RecordOutcome (o : Outcome) (m : InMemoryMetrics)
  : InMemoryMetrics :=
  mkInMemoryMetrics
    (attemptsTotal m) (attemptsSuccess m) (attemptsFailure m)
    (attemptsDurationTotal m)
    (wrap64 (outcomeTotal m + 1))
    (if Outcome_IsSuccess o then wrap64 (outcomeSuccess m + 1)
     else outcomeSuccess m)
    (if Outcome_IsSuccess o then outcomeFailure m
     else wrap64 (outcomeFailure m + 1))
    (wrap64 (outcomeDurationTotal m + Milliseconds (TotalDuration o)))
    (backoffDurationTotal m).

Definition InMemory_RecordBackoff (duration : Duration) (m : InMemoryMetrics)
  : InMemoryMetrics :=
  mkInMemoryMetrics
    (attemptsTotal m) (attemptsSuccess m) (attemptsFailure m)
    (attemptsDurationTotal m) (outcomeTotal m) (outcomeSuccess m)
    (outcomeFailure m) (outcomeDurationTotal m)
    (wrap64 (backoffDurationTotal m + Milliseconds duration)).

(** One call on the reporter, when the reporter is an InMemoryMetrics. *)
Definition receive (c : MetricsCall) (m : InMemoryMetrics) : InMemoryMetrics :=
  match c with
  | RecordAttempt a => InMemory_RecordAttempt a m
  | RecordOutcome o => InMemory_RecordOutcome o m
  | RecordBackoff _ _ duration => InMemory_RecordBackoff duration m
  end.

Definition receiveAll (calls : list MetricsCall) (m : InMemoryMetrics)
  : InMemoryMetrics :=
  fold_left (fun m c => receive c m) calls m.

Definition isSuccessAttempt (c : MetricsCall) : bool :=
  match c with
  | RecordAttempt a => Attempt_IsSuccess a
  | _ => false
  end.

Definition isSuccessOutcome (c : MetricsCall) : bool :=
  match c with
  | RecordOutcome o => Outcome_IsSuccess o
  | _ => false
  end.

(** The counters count, and successes and failures add up to the total. *)
Definition countersConsistent (m : InMemoryMetrics) : Prop :=
  0 <= attemptsSuccess m /\ 0 <= attemptsFailure m /\
  attemptsSuccess m + attemptsFailure m = attemptsTotal m /\
  0 <= outcomeSuccess m /\ 0 <= outcomeFailure m /\
  outcomeSuccess m + outcomeFailure m = outcomeTotal m.

End inmemory.

(** ** Package cache *)

Module cache.

(** A byte slice is a string of bytes; a slice that may be nil is an
    [option]. *)
Definition bytes := string.

(** A store, as the client calls it: an object with the six methods
    [Get], [MGet], [Set], [MSet], [Delete] and [MDelete]. A method returns
    its results and the state it leaves the store in. *)
Record Store : Type := mkStore {
  store_impl : Type;
  store_this : store_impl;
  impl_Get : store_impl -> bytes -> option bytes * error * store_impl;
  impl_MGet :
    store_impl -> list bytes -> list (option bytes) * error * store_impl;
  impl_Set : store_impl -> bytes -> option bytes -> error * store_impl;
  impl_MSet :
    store_impl -> list bytes -> list (option bytes) -> error * store_impl;
  impl_Delete : store_impl -> bytes -> error * store_impl;
  impl_MDelete : store_impl -> list bytes -> error * store_impl
}.

Definition withState (s : Store) (x : store_impl s) : Store :=
  mkStore (store_impl s) x (impl_Get s) (impl_MGet s) (impl_Set s)
    (impl_MSet s) (impl_Delete s) (impl_MDelete s).

Definition Store_Get (s : Store) (key : bytes)
  : option bytes * error * Store :=
  match impl_Get s (store_this s) key with
  | (value, e, x) => (value, e, withState s x)
  end.

Definition Store_MGet (s : Store) (keys : list bytes)
  : list (option bytes) * error * Store :=
  match impl_MGet s (store_this s) keys with
  | (values, e, x) => (values, e, withState s x)
  end.

Definition Store_Set (s : Store) (key : bytes) (value : option bytes)
  : error * Store :=
  match impl_Set s (store_this s) key value with
  | (e, x) => (e, withState s x)
  end.

Definition Store_MSet (s : Store) (keys : list bytes)
  (values : list (option bytes)) : error * Store :=
  match impl_MSet s (store_this s) keys values with
  | (e, x) => (e, withState s x)
  end.

Definition Store_Delete (s : Store) (key : bytes) : error * Store :=
  match impl_Delete s (store_this s) key with
  | (e, x) => (e, withState s x)
  end.

Definition Store_MDelete (s : Store) (keys : list bytes) : error * Store :=
  match impl_MDelete s (store_this s) keys with
  | (e, x) => (e, withState s x)
  end.

(** [executeOnAllStores]; [fn] returns its three results and the store as
    the call left it. The result is what the function returns and the
    stores after the loop. *)
Fixpoint executeOnAllStores {T : Type} (zero : T) (stores : list Store)
  (fn : Store -> T * bool * error * Store) : T * error * list Store :=
  match stores with
  | [] => (zero, None, [])
  | store :: rest =>
      match fn store with
      | (result, exit, e, store') =>
          if exit then (result, e, store' :: rest)
          else
            match executeOnAllStores zero rest fn with
            | (r, e', rest') => (r, e', store' :: rest')
            end
      end
  end.

Definition clientImpl_Get (stores : list Store) (key : bytes)
  : option bytes * error * list Store :=
  executeOnAllStores None stores
    (fun store =>
       match Store_Get store key with
       | (_, Some e, store') => (None, false, Some e, store')
       | (Some v, None, store') => (Some v, true, None, store')
       | (None, None, store') => (None, false, None, store')
       end).

(** The scan of [MGet] for a value that is not nil. *)
Definition allNil (values : list (option bytes)) : bool :=
  forallb (fun value => match value with None => true | Some _ => false end)
    values.

Definition clientImpl_MGet (stores : list Store) (keys : list bytes)
  : list (option bytes) * error * list Store :=
  executeOnAllStores [] stores
    (fun store =>
       match Store_MGet store keys with
       | (_, Some e, store') => ([], false, Some e, store')
       | (values, None, store') =>
           if negb (allNil values) then (values, true, None, store')
           else ([], false, None, store')
       end).

Definition clientImpl_Set (stores : list Store) (key : bytes)
  (value : option bytes) : error * list Store :=
  match executeOnAllStores tt stores
          (fun store =>
             match Store_Set store key value with
             | (e, store') => (tt, false, e, store')
             end) with
  | (_, e, stores') => (e, stores')
  end.

Definition clientImpl_MSet (stores : list Store) (keys : list bytes)
  (values : list (option bytes)) : error * list Store :=
  match executeOnAllStores tt stores
          (fun store =>
             match Store_MSet store keys values with
             | (e, store') => (tt, false, e, store')
             end) with
  | (_, e, stores') => (e, stores')
  end.

Definition clientImpl_Delete (stores : list Store) (key : bytes)
  : error * list Store :=
  match executeOnAllStores tt stores
          (fun store =>
             match Store_Delete store key with
             | (e, store') => (tt, false, e, store')
             end) with
  | (_, e, stores') => (e, stores')
  end.

Definition clientImpl_MDelete (stores : list Store) (keys : list bytes)
  : error * list Store :=
  match executeOnAllStores tt stores
          (fun store =>
             match Store_MDelete store keys with
             | (e, store') => (tt, false, e, store')
             end) with
  | (_, e, stores') => (e, stores')
  end.

(** The store answers [Get] with an error or with a nil value. *)
Definition misses (key : bytes) (s : Store) : Prop :=
  match Store_Get s key with
  | (_, Some _, _) => True
  | (None, None, _) => True
  | (Some _, None, _) => False
  end.

(** The store after a call of the method. *)
Definition afterGet (key : bytes) (s : Store) : Store :=
  snd (Store_Get s key).
Definition afterSet (key : bytes) (value : option bytes) (s : Store) : Store :=
  snd (Store_Set s key value).
Definition afterMSet (keys : list bytes) (values : list (option bytes))
  (s : Store) : Store :=
  snd (Store_MSet s keys values).
Definition afterDelete (key : bytes) (s : Store) : Store :=
  snd (Store_Delete s key).
Definition afterMDelete (keys : list bytes) (s : Store) : Store :=
  snd (Store_MDelete s keys).

(** A store over an association list, that fails when [broken]. *)
Definition listStore (broken : bool) (content : list (bytes * bytes))
  : Store :=
  let find (c : list (bytes * bytes)) (key : bytes) : option bytes :=
    match List.find (fun kv => String.eqb (fst kv) key) c with
    | Some kv => Some (snd kv)
    | None => None
    end in
  let fail : error :=
    if broken then Some (errorString 30 "store down") else None in
  mkStore (list (bytes * bytes)) content
    (fun c key => (if broken then None else find c key, fail, c))
    (fun c keys => (if broken then [] else map (find c) keys, fail, c))
    (fun c key value =>
       (fail,
        if broken then c
        else match value with
             | Some v => (key, v) :: c
             | None => c
             end))
    (fun c keys values => (fail, c))
    (fun c key =>
       (fail,
        if broken then c
        else filter (fun kv => negb (String.eqb (fst kv) key)) c))
    (fun c keys => (fail, c)).

End cache.

(** * Properties *)

(** ** The count window *)

Section WindowProofs.
Import circuitbreaker window_spec.

Lemma wrap32_id (z : Z) : in_int32 z -> wrap32 z = z.
Proof.
  unfold in_int32, MinInt32, MaxInt32, wrap32. intros H.
  rewrite Z.mod_small; lia.
Qed.

Lemma wrap64_id (z : Z) : in_int64 z -> wrap64 z = z.
Proof.
  unfold in_int64, MinInt64, MaxInt64, wrap64. intros H.
  rewrite Z.mod_small; lia.
Qed.

(** Removes the wrap-arounds whose argument is in range, innermost first. *)
Ltac unwrap32 :=
  repeat match goal with
    | |- context [wrap32 ?z] =>
        rewrite (wrap32_id z) by (unfold in_int32, MinInt32, MaxInt32; lia)
    end.

Lemma countSlots_app f (a b : Ring) :
  countSlots f (a ++ b) = countSlots f a + countSlots f b.
Proof. induction a as [|v a IH]; simpl; [reflexivity | rewrite IH; lia]. Qed.

Lemma countSlots_bounds f (r : Ring) : 0 <= countSlots f r <= ring_Len r.
Proof.
  unfold ring_Len. induction r as [|v r IH]; simpl List.length; simpl countSlots.
  - lia.
  - destruct (f v); lia.
Qed.

Lemma countSlots_repeat_None f n :
  f None = false -> countSlots f (repeat None n) = 0.
Proof.
  intros Hf. induction n as [|n IH]; simpl; [reflexivity|].
  rewrite Hf, IH. reflexivity.
Qed.

Lemma countSlots_filled (r : Ring) :
  countSlots isSuccessSlot r + countSlots isFailureSlot r
  = countSlots isFilledSlot r.
Proof.
  induction r as [|[[| | |]|] r IH];
    cbn [countSlots isSuccessSlot isFailureSlot isSlowSlot isFilledSlot]; lia.
Qed.

Lemma countSlots_slow_le (r : Ring) :
  countSlots isSlowSlot r <= countSlots isFilledSlot r.
Proof.
  induction r as [|[[| | |]|] r IH];
    cbn [countSlots isSuccessSlot isFailureSlot isSlowSlot isFilledSlot]; lia.
Qed.

Lemma ring_New_length (n : Z) : 0 <= n -> ring_Len (ring_New n) = n.
Proof.
  intros H. unfold ring_Len, ring_New. rewrite repeat_length. lia.
Qed.

Lemma WindowInv_New (capacity : Z) :
  0 <= capacity -> WindowInv capacity (NewCountWindow capacity).
Proof.
  intros H. unfold WindowInv, NewCountWindow; simpl.
  rewrite ring_New_length by assumption.
  unfold ring_New. rewrite !countSlots_repeat_None by reflexivity. auto.
Qed.

Lemma WindowInv_Reset (capacity : Z) (w : CountWindow) :
  WindowInv capacity w -> WindowInv capacity (CountWindow_Reset w).
Proof.
  intros (Hlen & _). unfold WindowInv, CountWindow_Reset; simpl.
  rewrite Hlen.
  assert (0 <= capacity) by (subst capacity; unfold ring_Len; lia).
  rewrite ring_New_length by assumption.
  unfold ring_New. rewrite !countSlots_repeat_None by reflexivity. auto.
Qed.

Lemma WindowInv_Record (capacity : Z) (outcome : CallOutcome)
  (w : CountWindow) :
  0 < capacity <= MaxInt32 -> WindowInv capacity w ->
  exists w', CountWindow_RecordOutcome outcome w = Returns w' /\
             WindowInv capacity w'.
Proof.
  intros Hcap (Hlen & Hs & Hf & Hsl).
  destruct w as [r s f sl]; simpl in *.
  destruct r as [|old rest].
  { unfold ring_Len in Hlen; simpl in Hlen; lia. }
  unfold CountWindow_RecordOutcome; simpl ring.
  eexists; split; [reflexivity|].
  pose proof (countSlots_bounds isSuccessSlot rest) as Bs.
  pose proof (countSlots_bounds isFailureSlot rest) as Bf.
  pose proof (countSlots_bounds isSlowSlot rest) as Bsl.
  assert (Hrest : ring_Len rest = capacity - 1).
  { unfold ring_Len in *; simpl List.length in Hlen; lia. }
  unfold WindowInv, MaxInt32 in *.
  assert (Hlen' : ring_Len (rest ++ [Some outcome]) = capacity).
  { unfold ring_Len in *. rewrite length_app; simpl List.length. lia. }
  destruct old as [[| | |]|]; destruct outcome;
    cbn [decrementOutcome incrementOutcome ring successCount failureCount
         slowCallCount ring_Next countSlots isSuccessSlot isFailureSlot
         isSlowSlot] in *;
    rewrite ?countSlots_app;
    cbn [countSlots isSuccessSlot isFailureSlot isSlowSlot];
    subst s f sl;
    unwrap32;
    (split; [exact Hlen' | repeat split; lia]).
Qed.

Lemma WindowInv_applyOps (capacity : Z) (ops : list WindowOp) :
  0 < capacity <= MaxInt32 ->
  forall w, WindowInv capacity w ->
  exists w', applyOps ops w = Returns w' /\ WindowInv capacity w'.
Proof.
  intros Hcap. induction ops as [|op ops IH]; intros w Hw; simpl.
  - exists w; auto.
  - destruct op as [outcome|]; simpl.
    + destruct (WindowInv_Record capacity outcome w Hcap Hw) as (w1 & E & H1).
      rewrite E; simpl. apply IH; assumption.
    + apply IH. apply WindowInv_Reset; assumption.
Qed.

Lemma rate_in_range (count total : Z) :
  0 <= count <= total -> 0 < total ->
  rateInRange (inject_Z count / inject_Z total * 100)%Q.
Proof.
  intros Hc Ht. unfold rateInRange.
  assert (Ht' : (0 < inject_Z total)%Q) by (rewrite <- (Zlt_Qlt 0); exact Ht).
  assert (H0 : (0 <= inject_Z count / inject_Z total)%Q).
  { apply Qle_shift_div_l; [exact Ht'|]. rewrite Qmult_0_l.
    rewrite <- (Zle_Qle 0). lia. }
  assert (H1 : (inject_Z count / inject_Z total <= 1)%Q).
  { apply Qle_shift_div_r; [exact Ht'|]. rewrite Qmult_1_l.
    rewrite <- Zle_Qle. lia. }
  split.
  - apply Qmult_le_0_compat; [exact H0 | discriminate].
  - setoid_replace 100%Q with (1 * 100)%Q at 2 by reflexivity.
    apply Qmult_le_compat_r; [exact H1 | discriminate].
Qed.

Lemma WindowInv_Size (capacity : Z) (w : CountWindow) :
  0 < capacity <= MaxInt32 -> WindowInv capacity w ->
  CountWindow_Size w = successCount w + failureCount w /\
  0 <= successCount w /\ 0 <= failureCount w /\
  0 <= slowCallCount w <= successCount w + failureCount w /\
  successCount w + failureCount w <= capacity.
Proof.
  intros Hcap (Hlen & Hs & Hf & Hsl).
  pose proof (countSlots_bounds isSuccessSlot (ring w)).
  pose proof (countSlots_bounds isFailureSlot (ring w)).
  pose proof (countSlots_bounds isSlowSlot (ring w)).
  pose proof (countSlots_bounds isFilledSlot (ring w)).
  pose proof (countSlots_filled (ring w)).
  pose proof (countSlots_slow_le (ring w)).
  unfold CountWindow_Size, MaxInt32 in *. unwrap32. lia.
Qed.

(** C8, as amended: on a count window of a capacity between 1 and
    MaxInt32, after every sequence of Record and Reset operations the
    operations have returned, successCount + failureCount = Size(),
    slowCount is between 0 and Size(), Size() is between 0 and the capacity,
    the three rates of CallRates are in [0, 100] and are all zero when the
    window is empty, and a Reset leaves all counters and Size() at zero. *)
Theorem CountWindow_invariants (capacity : Z) (ops : list WindowOp) :
  0 < capacity <= MaxInt32 ->
  exists w,
    applyOps ops (NewCountWindow capacity) = Returns w /\
    successCount w + failureCount w = CountWindow_Size w /\
    0 <= slowCallCount w <= CountWindow_Size w /\
    0 <= CountWindow_Size w <= capacity /\
    (match CountWindow_CallRates w with
     | (total, successRate, failureRate, slowCallRate) =>
         total = CountWindow_Size w /\
         rateInRange successRate /\ rateInRange failureRate /\
         rateInRange slowCallRate /\
         (CountWindow_Size w = 0 ->
          (successRate, failureRate, slowCallRate) = (0%Q, 0%Q, 0%Q))
     end) /\
    successCount (CountWindow_Reset w) = 0 /\
    failureCount (CountWindow_Reset w) = 0 /\
    slowCallCount (CountWindow_Reset w) = 0 /\
    CountWindow_Size (CountWindow_Reset w) = 0.
Proof.
  intros Hcap.
  destruct (WindowInv_applyOps capacity ops Hcap (NewCountWindow capacity))
    as (w & Hrun & Hinv).
  { apply WindowInv_New; lia. }
  exists w. split; [exact Hrun|].
  destruct (WindowInv_Size capacity w Hcap Hinv)
    as (Hsize & Hs0 & Hf0 & Hslow & Hle).
  repeat split; try (rewrite ?Hsize; lia); try reflexivity.
  unfold CountWindow_CallRates.
  destruct (CountWindow_Size w =? 0) eqn:E.
  - apply Z.eqb_eq in E. unfold rateInRange.
    repeat split; try (symmetry; exact E); try discriminate.
  - apply Z.eqb_neq in E.
    repeat split; try (apply rate_in_range; rewrite ?Hsize; lia).
    intros H0. contradiction.
Qed.

Lemma CountWindow_invariants_witness :
  0 < 2 <= MaxInt32 /\
  exists w,
    applyOps [OpRecord OutcomeSuccess; OpRecord OutcomeSlowFailure;
              OpRecord OutcomeFailure] (NewCountWindow 2) = Returns w /\
    successCount w + failureCount w = CountWindow_Size w /\
    0 <= slowCallCount w <= CountWindow_Size w /\
    0 <= CountWindow_Size w <= 2 /\
    (match CountWindow_CallRates w with
     | (total, successRate, failureRate, slowCallRate) =>
         total = CountWindow_Size w /\
         rateInRange successRate /\ rateInRange failureRate /\
         rateInRange slowCallRate /\
         (CountWindow_Size w = 0 ->
          (successRate, failureRate, slowCallRate) = (0%Q, 0%Q, 0%Q))
     end) /\
    successCount (CountWindow_Reset w) = 0 /\
    failureCount (CountWindow_Reset w) = 0 /\
    slowCallCount (CountWindow_Reset w) = 0 /\
    CountWindow_Size (CountWindow_Reset w) = 0.
Proof.
  split.
  - unfold MaxInt32; lia.
  - apply (CountWindow_invariants 2); unfold MaxInt32; lia.
Defined.

Lemma applyOps_app (a b : list WindowOp) (w : CountWindow) :
  applyOps (a ++ b) w = bindC (applyOps a w) (applyOps b).
Proof.
  revert w. induction a as [|op a IH]; intros w; simpl; [reflexivity|].
  destruct (applyOp op w); simpl; [apply IH | reflexivity].
Qed.

(** Recording [n] successes into [n] empty slots. *)
Lemma applyOps_fill_success (n : nat) :
  forall (tl : Ring) (s f sl : Z),
  0 <= s -> s + Z.of_nat n <= MaxInt32 ->
  applyOps (repeat (OpRecord OutcomeSuccess) n)
    (mkCountWindow (repeat None n ++ tl) s f sl)
  = Returns (mkCountWindow (tl ++ repeat (Some OutcomeSuccess) n)
               (s + Z.of_nat n) f sl).
Proof.
  unfold MaxInt32.
  induction n as [|n IH]; intros tl s f sl Hs Hmax.
  - simpl. rewrite app_nil_r, Z.add_0_r. reflexivity.
  - cbn [repeat applyOps applyOp app].
    unfold CountWindow_RecordOutcome.
    cbn [ring successCount failureCount slowCallCount incrementOutcome
         ring_Next bindC].
    rewrite wrap32_id by (unfold in_int32, MinInt32, MaxInt32; lia).
    rewrite <- app_assoc.
    rewrite IH by lia.
    rewrite <- app_assoc. cbn [app].
    replace (s + 1 + Z.of_nat n) with (s + Z.of_nat (S n)) by lia.
    reflexivity.
Qed.

(** C8 fails at the capacity 2^31: after 2^31 - 1 successes and one failure
    the int32 sum of Size() has wrapped to -2^31, which is not
    successCount + failureCount, and the success rate is negative. *)
Lemma CountWindow_int32_overflow :
  exists w,
    applyOps
      (repeat (OpRecord OutcomeSuccess) (Z.to_nat 2147483647) ++
       [OpRecord OutcomeFailure])
      (NewCountWindow 2147483648) = Returns w /\
    successCount w + failureCount w = 2147483648 /\
    CountWindow_Size w = -2147483648 /\
    (match CountWindow_CallRates w with
     | (_, successRate, _, _) => successRate < 0
     end)%Q.
Proof.
  remember (Z.to_nat 2147483647) as n eqn:Hn.
  assert (Hofn : Z.of_nat n = 2147483647) by lia.
  exists (mkCountWindow
            (repeat (Some OutcomeSuccess) n ++ [Some OutcomeFailure])
            2147483647 1 0).
  split; [|split; [|split]].
  - unfold NewCountWindow, ring_New.
    replace (Z.to_nat 2147483648) with (n + 1)%nat by lia.
    rewrite repeat_app. cbn [repeat].
    rewrite applyOps_app.
    rewrite applyOps_fill_success by (unfold MaxInt32; lia).
    rewrite Hofn. reflexivity.
  - reflexivity.
  - reflexivity.
  - unfold CountWindow_CallRates, CountWindow_Size.
    cbn [successCount failureCount slowCallCount].
    reflexivity.
Qed.

End WindowProofs.

(** ** The circuit breaker *)

Section BreakerProofs.
Import circuitbreaker breaker_spec.

Context {any : Type}.

Lemma State_eqb_eq (a b : State) : State_eqb a b = true <-> a = b.
Proof. destruct a, b; simpl; split; intros H; congruence. Qed.

Lemma setStateUnsafe_state (now : Time) (st : State)
  (cb : circuitBreakerImpl any) :
  state any (setStateUnsafe now st cb) = st.
Proof.
  unfold setStateUnsafe. destruct (State_eqb (state any cb) st) eqn:E.
  - apply State_eqb_eq in E. exact E.
  - reflexivity.
Qed.

Lemma areThresholdsExceeded_iff (cb : circuitBreakerImpl any) :
  areThresholdsExceededUnsafe cb = true <->
  thresholdsExceeded (config any cb) (window any cb).
Proof.
  unfold areThresholdsExceededUnsafe, thresholdsExceeded.
  destruct (CallRates (window any cb)) as [[sr fr] sl].
  rewrite orb_true_iff, !Qle_bool_iff. reflexivity.
Qed.

(** C2: for a breaker in the Closed state whose window records the outcome,
    [after] returns, and the breaker is then Open if and only if the
    window's Size() is at least MinimumNumberOfCalls and the failure rate is
    at least FailureRateThreshold or the slow call rate at least
    SlowCallRateThreshold (all read from the window after the record);
    otherwise it is still Closed. *)
Theorem after_closed_to_open_iff (cb : circuitBreakerImpl any) (now : Time)
  (result : any) (e : error) (duration : Duration) (w : Window) :
  state any cb = StateClosed ->
  RecordOutcome (classifyCall cb result e duration) (window any cb)
    = Returns w ->
  exists cb',
    after now result e duration cb = Returns cb' /\
    (state any cb' = StateOpen <->
     MinimumNumberOfCalls any (config any cb) <= Size w /\
     thresholdsExceeded (config any cb) w) /\
    (state any cb' <> StateOpen -> state any cb' = StateClosed).
Proof.
  intros Hclosed Hrec.
  unfold after. rewrite Hrec, Hclosed. cbn [State_eqb andb].
  eexists; split; [reflexivity|].
  unfold evaluateStateTransitionUnsafe. cbn [state config window].
  match goal with
  | |- context [areThresholdsExceededUnsafe ?c] =>
      pose proof (areThresholdsExceeded_iff c) as Hthr
  end.
  cbn [config window] in Hthr.
  destruct (MinimumNumberOfCalls any (config any cb) <=? Size w) eqn:Hmin;
    cbn [andb].
  - apply Z.leb_le in Hmin.
    match goal with
    | |- context [areThresholdsExceededUnsafe ?c] =>
        destruct (areThresholdsExceededUnsafe c) eqn:Hex
    end.
    + rewrite setStateUnsafe_state. split.
      * split; [intros _; split; [exact Hmin | apply Hthr; reflexivity]
               | reflexivity].
      * intros H; contradiction.
    + cbn [state]. split.
      * split; [discriminate|].
        intros [_ H]. apply Hthr in H. discriminate.
      * reflexivity.
  - apply Z.leb_gt in Hmin. cbn [state]. split.
    + split; [discriminate | intros [H _]; lia].
    + reflexivity.
Qed.

(** In the state StateMetricsOnly, which no code path enters, [before]
    admits every call and leaves the breaker as it is. *)
Lemma before_in_metrics_only (t1 t2 : Time) (cb : circuitBreakerImpl any) :
  state any cb = StateMetricsOnly -> before t1 t2 cb = (None, cb).
Proof.
  intros H. unfold before. rewrite H. cbn [State_eqb andb]. rewrite H.
  reflexivity.
Qed.

(** In every state [after] hands the outcome of the call to the window;
    the window is then reset when the record causes a transition. *)
Lemma after_records (now : Time) (result : any) (e : error)
  (duration : Duration) (cb : circuitBreakerImpl any) (w : Window) :
  RecordOutcome (classifyCall cb result e duration) (window any cb)
    = Returns w ->
  exists cb',
    after now result e duration cb = Returns cb' /\
    (window any cb' = w \/ window any cb' = Reset w).
Proof.
  intros Hrec. unfold after. rewrite Hrec.
  eexists; split; [reflexivity|].
  unfold evaluateStateTransitionUnsafe, setStateUnsafe.
  cbn [state config window].
  repeat match goal with
         | |- context [if ?c then _ else _] => destruct c
         | |- context [match ?s with StateClosed => _ | _ => _ end] =>
             destruct s
         end; cbn [window]; auto.
Qed.

(** C3: (1) an Open breaker whose wait has not elapsed is rejected by
    [before] with ErrOpenState, and (2) a HalfOpen breaker without leases
    with ErrHalfOpenState; (3) whenever [before] returns an error, Execute
    returns the zero value and that error, having called neither the
    function nor [after]; (4) an Open breaker whose wait has elapsed is
    first moved to HalfOpen (leases seeded, completed leases zero, window
    reset), and the call is then admitted on a lease, or rejected with
    ErrHalfOpenState when no lease is permitted. *)
Theorem Execute_surfaces_rejection (env : ExecEnv) (zero : any)
  (cb : circuitBreakerImpl any) (fn : FnBehaviour any) :
  let r := before (tSince env) (tTransitionBefore env) cb in
  let elapsed := time_Since (tSince env) (transitionTime any cb) in
  let wait := WaitDurationInOpenState any (config any cb) in
  let permitted := PermittedNumberOfCallsInHalfOpenState any (config any cb) in
  (state any cb = StateOpen -> elapsed < wait ->
   r = (Some ErrOpenState, cb)) /\
  (state any cb = StateHalfOpen -> halfOpenLeases any cb <= 0 ->
   r = (Some ErrHalfOpenState, cb)) /\
  (forall e, fst r = Some e ->
   Execute env zero cb fn
   = mkExecResult any zero (Some e) (Returns (snd r)) [CalledBefore]) /\
  (state any cb = StateOpen -> wait <= elapsed ->
   state any (snd r) = StateHalfOpen /\
   transitionTime any (snd r) = tTransitionBefore env /\
   window any (snd r) = Reset (window any cb) /\
   halfOpenCompletedLeases any (snd r) = 0 /\
   (0 < permitted ->
    fst r = None /\ halfOpenLeases any (snd r) = wrap64 (permitted - 1)) /\
   (permitted <= 0 ->
    fst r = Some ErrHalfOpenState /\ halfOpenLeases any (snd r) = permitted)).
Proof.
  intros r elapsed wait permitted. subst r elapsed wait permitted.
  split; [|split; [|split]].
  - intros Hopen Hlt. unfold before. rewrite Hopen. cbn [State_eqb andb].
    apply Z.leb_gt in Hlt. rewrite Hlt. rewrite Hopen. reflexivity.
  - intros Hhalf Hle. unfold before. rewrite Hhalf. cbn [State_eqb andb].
    rewrite Hhalf. apply Z.leb_le in Hle. rewrite Hle. reflexivity.
  - intros e He. unfold Execute.
    destruct (before (tSince env) (tTransitionBefore env) cb) as [e' cb1].
    cbn [fst snd] in *. subst e'. reflexivity.
  - intros Hopen Hge. unfold before. rewrite Hopen. cbn [State_eqb andb].
    apply Z.leb_le in Hge. rewrite Hge.
    unfold setStateUnsafe. rewrite Hopen. cbn [State_eqb state halfOpenLeases].
    destruct (PermittedNumberOfCallsInHalfOpenState any (config any cb) <=? 0)
      eqn:Hp; cbn [fst snd state transitionTime window
                   halfOpenCompletedLeases halfOpenLeases config].
    + apply Z.leb_le in Hp.
      repeat split; try reflexivity; intros; lia.
    + apply Z.leb_gt in Hp.
      repeat split; try reflexivity; intros; lia.
Qed.

End BreakerProofs.

Section BreakerWitnesses.
Import circuitbreaker breaker_spec.

Lemma after_closed_to_open_iff_witness :
  let cb := New (any:=unit) "cb" [WithMinimumNumberOfCalls 1] in
  let e := Some (errorString 9 "boom") in
  let w :=
    CountWindow_Window
      (mkCountWindow (repeat None 99 ++ [Some OutcomeFailure]) 0 1 0) in
  state unit cb = StateClosed /\
  RecordOutcome (classifyCall cb tt e 0) (window unit cb) = Returns w /\
  exists cb',
    after 5 tt e 0 cb = Returns cb' /\
    (state unit cb' = StateOpen <->
     MinimumNumberOfCalls unit (config unit cb) <= Size w /\
     thresholdsExceeded (config unit cb) w) /\
    (state unit cb' <> StateOpen -> state unit cb' = StateClosed).
Proof.
  intros cb e w.
  assert (H1 : state unit cb = StateClosed) by reflexivity.
  assert (H2 : RecordOutcome (classifyCall cb tt e 0) (window unit cb)
               = Returns w) by reflexivity.
  split; [exact H1 | split; [exact H2 |]].
  exact (after_closed_to_open_iff cb 5 tt e 0 w H1 H2).
Defined.


Lemma Execute_surfaces_rejection_witness :
  let w := CountWindow_Window (NewCountWindow 4) in
  let cb := mkBreaker "cb" w (defaultConfig unit) StateOpen 100 0 0 in
  let half := mkBreaker "cb" w (defaultConfig unit) StateHalfOpen 100 0 0 in
  let early := mkExecEnv 200 201 202 203 204 None 1 in
  let late := mkExecEnv (100 + 60 * Second) (101 + 60 * Second)
                (102 + 60 * Second) (103 + 60 * Second) (104 + 60 * Second)
                None 1 in
  let fn := FnReturns tt None in
  before 200 201 cb = (Some ErrOpenState, cb) /\
  before 200 201 half = (Some ErrHalfOpenState, half) /\
  Execute early tt cb fn
  = mkExecResult unit tt (Some ErrOpenState) (Returns cb) [CalledBefore] /\
  state unit (snd (before (100 + 60 * Second) (101 + 60 * Second) cb))
  = StateHalfOpen /\
  fst (before (100 + 60 * Second) (101 + 60 * Second) cb) = None.
Proof.
  intros w cb half early late fn.
  destruct (Execute_surfaces_rejection early tt cb fn) as (A & _ & C & _).
  destruct (Execute_surfaces_rejection early tt half fn) as (_ & B & _ & _).
  destruct (Execute_surfaces_rejection late tt cb fn) as (_ & _ & _ & D).
  assert (Hopen : state unit cb = StateOpen) by reflexivity.
  assert (Hhalf : state unit half = StateHalfOpen) by reflexivity.
  assert (Hearly : time_Since (tSince early) (transitionTime unit cb)
                   < WaitDurationInOpenState unit (config unit cb))
    by reflexivity.
  assert (Hlate : WaitDurationInOpenState unit (config unit cb)
                  <= time_Since (tSince late) (transitionTime unit cb))
    by (vm_compute; discriminate).
  assert (Hleases : halfOpenLeases unit half <= 0)
    by (vm_compute; discriminate).
  assert (Hperm : 0 < PermittedNumberOfCallsInHalfOpenState unit
                        (config unit cb)) by reflexivity.
  specialize (A Hopen Hearly). specialize (B Hhalf Hleases).
  specialize (C (ErrOpenState)).
  destruct (D Hopen Hlate) as (D1 & _ & _ & _ & D2 & _).
  destruct (D2 Hperm) as (D3 & _).
  split; [exact A | split; [exact B | split; [| split; [exact D1 | exact D3]]]].
  change (Returns cb) with
    (Returns (snd (before (tSince early) (tTransitionBefore early) cb))).
  apply C. reflexivity.
Defined.

(** [New] never consults the metrics-only flag: every breaker starts
    Closed. *)
Lemma New_starts_closed (any : Type) (name : string)
  (opts : list (Option any)) :
  state any (New name opts) = StateClosed.
Proof. reflexivity. Qed.

(** C1 (the code at a failing input): a breaker built with
    WithMetricsOnlyMode has the flag set in its configuration and starts
    Closed; after twenty failed calls have gone through [after], each
    recorded in the window, it is Open and [before] returns ErrOpenState. *)
Theorem metrics_only_breaker_rejects :
  let cb := New (any:=unit) "cb" [WithMetricsOnlyMode] in
  let failed := mkCompletedCall tt (Some (errorString 9 "boom")) 0 1 in
  MetricsOnlyMode unit (config unit cb) = true /\
  state unit cb = StateClosed /\
  exists cb',
    afterAll (repeat failed 20) cb = Returns cb' /\
    state unit cb' = StateOpen /\
    fst (before 2 2 cb') = Some ErrOpenState.
Proof.
  intros cb failed.
  split; [reflexivity | split; [reflexivity|]].
  assert (H : match afterAll (repeat failed 20) cb with
              | Returns c =>
                  state unit c = StateOpen /\
                  fst (before 2 2 c) = Some ErrOpenState
              | Panics => False
              end) by (vm_compute; split; reflexivity).
  destruct (afterAll (repeat failed 20) cb) as [c|].
  - exists c. split; [reflexivity | exact H].
  - contradiction.
Qed.

End BreakerWitnesses.

(** ** The retry policy *)

Section PolicyProofs.
Import retry retry_spec.

Context {T : Type}.

Lemma matchesAny_iff (e : error) (targets : list error) :
  matchesAny e targets = true <-> matchesSome e targets.
Proof.
  unfold matchesSome. induction targets as [|t rest IH]; simpl.
  - split; [discriminate | intros (x & [] & _)].
  - destruct (errors.Is e t) eqn:E.
    + split; [intros _; exists t; auto | reflexivity].
    + rewrite IH. split.
      * intros (x & Hin & Hx). exists x; auto.
      * intros (x & [Heq | Hin] & Hx).
        -- subst x. congruence.
        -- exists x; auto.
Qed.

Lemma matchesAny_false_iff (e : error) (targets : list error) :
  matchesAny e targets = false <-> ~ matchesSome e targets.
Proof.
  rewrite <- matchesAny_iff. destruct (matchesAny e targets); split;
    congruence.
Qed.

(** C5: ShouldRetryError is false on a nil error; else the predicate's
    result when retryOnErrorPredicate is set, whatever the lists hold; else
    false when the error matches an ignoreErrors entry through the unwrap
    chain; else, with a non-empty retryErrors, true exactly when the error
    matches one of its entries; and true when retryErrors is empty. *)
Theorem ShouldRetryError_spec (p : Policy T) (e : error) :
  (e = None -> ShouldRetryError p e = false) /\
  (forall x predicate,
     e = Some x -> retryOnErrorPredicate p = Some predicate ->
     ShouldRetryError p e = predicate x) /\
  (e <> None -> retryOnErrorPredicate p = None ->
   matchesSome e (ignoreErrors p) -> ShouldRetryError p e = false) /\
  (e <> None -> retryOnErrorPredicate p = None ->
   ~ matchesSome e (ignoreErrors p) -> retryErrors p <> [] ->
   (ShouldRetryError p e = true <-> matchesSome e (retryErrors p))) /\
  (e <> None -> retryOnErrorPredicate p = None ->
   ~ matchesSome e (ignoreErrors p) -> retryErrors p = [] ->
   ShouldRetryError p e = true).
Proof.
  unfold ShouldRetryError.
  split; [|split; [|split; [|split]]].
  - intros ->. reflexivity.
  - intros x predicate -> ->. reflexivity.
  - intros He Hp Hm. destruct e as [x|]; [|congruence]. rewrite Hp.
    apply matchesAny_iff in Hm. rewrite Hm. reflexivity.
  - intros He Hp Hm Hne. destruct e as [x|]; [|congruence]. rewrite Hp.
    apply matchesAny_false_iff in Hm. rewrite Hm.
    destruct (retryErrors p) as [|t rest] eqn:Hr; [congruence|].
    replace (0 <? Z.of_nat (List.length (t :: rest))) with true
      by (symmetry; apply Z.ltb_lt; simpl List.length; lia).
    rewrite <- matchesAny_iff.
    destruct (matchesAny (Some x) (t :: rest)); split; congruence.
  - intros He Hp Hm Hnil. destruct e as [x|]; [|congruence]. rewrite Hp.
    apply matchesAny_false_iff in Hm. rewrite Hm, Hnil. reflexivity.
Qed.

Lemma fold_applyOption_app (a b : list (Option T)) (p : Policy T) :
  fold_left (fun p option => applyOption option p) (a ++ b) p
  = fold_left (fun p option => applyOption option p) b
      (fold_left (fun p option => applyOption option p) a p).
Proof. apply fold_left_app. Qed.

Lemma fold_keeps_retryErrors (opts : list (Option T)) :
  forall p : Policy T,
  forallb (fun opt => negb (isWithRetryErrors opt)) opts = true ->
  retryErrors (fold_left (fun p option => applyOption option p) opts p)
  = retryErrors p.
Proof.
  induction opts as [|opt opts IH]; intros p H; simpl in *; [reflexivity|].
  apply andb_true_iff in H as [Ho Hrest].
  rewrite IH by exact Hrest.
  destruct opt; simpl in *; congruence.
Qed.

Lemma fold_keeps_ignoreErrors (opts : list (Option T)) :
  forall p : Policy T,
  forallb (fun opt => negb (isWithIgnoreErrors opt)) opts = true ->
  ignoreErrors (fold_left (fun p option => applyOption option p) opts p)
  = ignoreErrors p.
Proof.
  induction opts as [|opt opts IH]; intros p H; simpl in *; [reflexivity|].
  apply andb_true_iff in H as [Ho Hrest].
  rewrite IH by exact Hrest.
  destruct opt; simpl in *; congruence.
Qed.

(** C10: when NewPolicy returns a policy, its retryErrors are exactly the
    arguments of the last WithRetryErrors among the options, whatever
    earlier applications set, and its ignoreErrors exactly those of the last
    WithIgnoreErrors: a later application replaces the list. *)
Theorem NewPolicy_last_errors_win (name : string)
  (before after : list (Option T)) (errs : list error) (p : Policy T) :
  (forallb (fun opt => negb (isWithRetryErrors opt)) after = true ->
   NewPolicy name (before ++ WithRetryErrors errs :: after) = inl p ->
   retryErrors p = errs) /\
  (forallb (fun opt => negb (isWithIgnoreErrors opt)) after = true ->
   NewPolicy name (before ++ WithIgnoreErrors errs :: after) = inl p ->
   ignoreErrors p = errs).
Proof.
  unfold NewPolicy. split; intros Hafter Hnew.
  - destruct (Validate _) in Hnew; [discriminate|].
    injection Hnew as <-.
    rewrite fold_applyOption_app. cbn [fold_left].
    rewrite fold_keeps_retryErrors by exact Hafter. reflexivity.
  - destruct (Validate _) in Hnew; [discriminate|].
    injection Hnew as <-.
    rewrite fold_applyOption_app. cbn [fold_left].
    rewrite fold_keeps_ignoreErrors by exact Hafter. reflexivity.
Qed.

End PolicyProofs.

Section PolicyWitnesses.
Import retry retry_spec scenarios.

Lemma ShouldRetryError_spec_witness :
  ShouldRetryError
    (mkPolicy (T:=unit) "p" None 3 0 linear None None [Some E1] [Some E2])
    None = false /\
  ShouldRetryError
    (mkPolicy (T:=unit) "p" None 3 0 linear None (Some (fun _ => true)) []
       [Some E2])
    (wrapped E2) = true /\
  ShouldRetryError
    (mkPolicy (T:=unit) "p" None 3 0 linear None None [] [Some E1; Some E2])
    (wrapped E2) = false /\
  (ShouldRetryError
     (mkPolicy (T:=unit) "p" None 3 0 linear None None [Some E1] [Some E2])
     (wrapped E1) = true <->
   matchesSome (wrapped E1) [Some E1]) /\
  ShouldRetryError
    (mkPolicy (T:=unit) "p" None 3 0 linear None None [] [Some E2])
    (wrapped E1) = true.
Proof.
  assert (Hno : ~ matchesSome (wrapped E1) [Some E2]).
  { intros (t & [<- | []] & H). discriminate H. }
  assert (Hyes : matchesSome (wrapped E2) [Some E1; Some E2]).
  { exists (Some E2). split; [right; left; reflexivity | reflexivity]. }
  assert (Hsome : forall e, wrapped e <> None) by discriminate.
  destruct (ShouldRetryError_spec
              (mkPolicy (T:=unit) "p" None 3 0 linear None None [Some E1]
                 [Some E2]) None) as (A & _).
  destruct (ShouldRetryError_spec
              (mkPolicy (T:=unit) "p" None 3 0 linear None
                 (Some (fun _ => true)) [] [Some E2]) (wrapped E2))
    as (_ & B & _).
  destruct (ShouldRetryError_spec
              (mkPolicy (T:=unit) "p" None 3 0 linear None None []
                 [Some E1; Some E2]) (wrapped E2)) as (_ & _ & C & _).
  destruct (ShouldRetryError_spec
              (mkPolicy (T:=unit) "p" None 3 0 linear None None [Some E1]
                 [Some E2]) (wrapped E1)) as (_ & _ & _ & D & _).
  destruct (ShouldRetryError_spec
              (mkPolicy (T:=unit) "p" None 3 0 linear None None []
                 [Some E2]) (wrapped E1)) as (_ & _ & _ & _ & F).
  split; [|split; [|split; [|split]]].
  - exact (A eq_refl).
  - exact (B _ _ eq_refl eq_refl).
  - exact (C (Hsome E2) eq_refl Hyes).
  - apply (D (Hsome E1) eq_refl Hno). discriminate.
  - exact (F (Hsome E1) eq_refl Hno eq_refl).
Defined.

Lemma NewPolicy_last_errors_win_witness :
  let p1 := mkPolicy (T:=unit) "test.Policy" None 5 0 linear None None
              [Some E2] [] in
  let p2 := mkPolicy (T:=unit) "test.Policy" None 3 0 linear None None
              [] [Some E2] in
  NewPolicy "test.Policy"
    ([WithRetryErrors [Some E1]] ++
     WithRetryErrors [Some E2] :: [WithMaxAttempts 5]) = inl p1 /\
  retryErrors p1 = [Some E2] /\
  NewPolicy "test.Policy"
    ([WithIgnoreErrors [Some E1]] ++ WithIgnoreErrors [Some E2] :: [])
  = inl p2 /\
  ignoreErrors p2 = [Some E2].
Proof.
  intros p1 p2.
  assert (H1 : NewPolicy "test.Policy"
                 ([WithRetryErrors [Some E1]] ++
                  WithRetryErrors [Some E2] :: [WithMaxAttempts 5]) = inl p1)
    by reflexivity.
  assert (H2 : NewPolicy "test.Policy"
                 ([WithIgnoreErrors [Some E1]] ++
                  WithIgnoreErrors [Some E2] :: []) = inl p2)
    by reflexivity.
  split; [exact H1 | split; [| split; [exact H2 |]]].
  - apply (NewPolicy_last_errors_win "test.Policy"
             [WithRetryErrors [Some E1]] [WithMaxAttempts 5] [Some E2] p1);
      [reflexivity | exact H1].
  - apply (NewPolicy_last_errors_win "test.Policy"
             [WithIgnoreErrors [Some E1]] [] [Some E2] p2);
      [reflexivity | exact H2].
Defined.

(** The two cases of TestNewPolicy, which expect both applications to be
    kept, on the code: one entry is left. *)
Lemma TestNewPolicy_on_the_code :
  (exists p : Policy unit,
     NewPolicy "test.Policy"
       [WithIgnoreErrors [Some E1]; WithIgnoreErrors [Some E2]] = inl p /\
     List.length (ignoreErrors p) = 1%nat) /\
  (exists p : Policy unit,
     NewPolicy "test.Policy"
       [WithRetryErrors [Some E1]; WithRetryErrors [Some E2]] = inl p /\
     List.length (retryErrors p) = 1%nat).
Proof. split; eexists; split; reflexivity. Qed.

End PolicyWitnesses.

(** ** The retry engine *)

Section EngineProofs.
Import retry retry_spec.

Context {T : Type}.
Variables (env : Env T) (p : Policy T) (b : backoff.Backoff).
Hypothesis Hbackoff : backoff p = Some b.
Hypothesis Hint : in_int64 (maxAttempts p).
Hypothesis Halloc : allocates env p.

(** One iteration that goes on to the next attempt. *)
Lemma loop_continue (fuel : nat) (c : Z) (retryErr : RetryError)
  (outcome : Outcome) (calls : list MetricsCall) :
  0 <= c -> continues env p b c ->
  loop env p (S fuel) c retryErr outcome calls
  = loop env p fuel (c + 1)
      (mkRetryError (Attempts retryErr ++ [attemptOf env p c])
         (TerminationError retryErr))
      outcome
      ((calls ++ [RecordAttempt (attemptOf env p c)]) ++
       [RecordBackoff (name p) (c + 1) (b (backoff.wrapUint c))]).
Proof.
  intros Hc (Hs & Hr & Hlt & Hw).
  cbn [loop]. rewrite Hs, Hr. cbn [negb].
  apply Z.leb_gt in Hlt as Hlt'. rewrite Hlt'.
  rewrite Hbackoff. cbn [Attempts TerminationError]. rewrite Hw.
  rewrite wrap64_id
    by (unfold in_int64, MinInt64, MaxInt64 in *; lia).
  reflexivity.
Qed.

Lemma prefixAttempts_S (k : nat) :
  prefixAttempts env p (S k)
  = prefixAttempts env p k ++ [attemptOf env p (Z.of_nat (S k))].
Proof.
  unfold prefixAttempts. rewrite seq_S, map_app. reflexivity.
Qed.

Lemma prefixCalls_S (k : nat) :
  prefixCalls env p b (S k)
  = (prefixCalls env p b k ++
     [RecordAttempt (attemptOf env p (Z.of_nat (S k)))]) ++
    [RecordBackoff (name p) (Z.of_nat (S k) + 1)
       (b (backoff.wrapUint (Z.of_nat (S k))))].
Proof.
  unfold prefixCalls. rewrite seq_S, flat_map_app. cbn [flat_map].
  rewrite app_nil_r, <- app_assoc. reflexivity.
Qed.

(** While attempts [1..k] continue, the loop arrives at attempt [k + 1]
    with their records and calls. *)
Lemma loop_reaches (k : nat) :
  reaches env p b k ->
  forall (fuel : nat) (outcome : Outcome),
  loop env p (k + fuel) 1 (mkRetryError [] None) outcome []
  = loop env p fuel (Z.of_nat k + 1)
      (mkRetryError (prefixAttempts env p k) None) outcome
      (prefixCalls env p b k).
Proof.
  induction k as [|k IH]; intros Hreach fuel outcome.
  - reflexivity.
  - replace (S k + fuel)%nat with (k + S fuel)%nat by lia.
    rewrite IH by (intros i Hi; apply Hreach; lia).
    rewrite loop_continue.
    + cbn [Attempts TerminationError].
      replace (Z.of_nat k + 1) with (Z.of_nat (S k)) by lia.
      rewrite <- prefixAttempts_S, <- prefixCalls_S. reflexivity.
    + lia.
    + replace (Z.of_nat k + 1) with (Z.of_nat (S k)) by lia.
      apply Hreach. lia.
Qed.






(** [Execute] from the attempt that follows [k] continuing attempts. *)
Lemma Execute_unroll (k : nat) :
  reaches env p b k ->
  exists fuel,
    Execute env p
    = match loop env p (S fuel) (Z.of_nat k + 1)
              (mkRetryError (prefixAttempts env p k) None)
              (mkOutcome (name p) 0 0 OutcomeStatusError EmptyString)
              (prefixCalls env p b k) with
      | None => None
      | Some x =>
          Some (mkExecuteResult (returned x)
                  (metricsReporter (globalMetrics env) p)
                  (recordFinalOutcome env x))
      end.
Proof.
  intros Hreach.
  assert (Hk : Z.of_nat k < Z.max 1 (maxAttempts p)).
  { destruct k as [|k]; [lia|].
    destruct (Hreach (S k)) as (_ & _ & Hlt & _); lia. }
  exists (Z.to_nat (Z.max 1 (maxAttempts p)) - k - 1)%nat.
  unfold Execute, execute_fuel. rewrite Halloc.
  replace (Z.to_nat (Z.max 1 (maxAttempts p)))
    with (k + S (Z.to_nat (Z.max 1 (maxAttempts p)) - k - 1))%nat at 1 by lia.
  rewrite loop_reaches by exact Hreach. reflexivity.
Qed.

(** C7: in a run of Execute that makes attempts (the allocation that
    execute starts with succeeds), when attempts 1..k continue, attempt
    k+1 fails retryably before maxAttempts is reached and the wait after it
    is interrupted with the cause waitErr, Execute returns at once: the RetryError holds the k+1
    attempts made and has TerminationError = waitErr; the last call on the
    reporter after the k+1-th attempt record is the Outcome, with status
    error and failure reason timeout when waitErr is DeadlineExceeded
    (through the unwrap chain) and canceled otherwise; no further attempt
    and no backoff is recorded. *)
Theorem Execute_canceled_during_backoff (k : nat) (waitErr : err) :
  reaches env p b k ->
  success (executeAttempt env p (Z.of_nat (S k))) = false ->
  retryable (executeAttempt env p (Z.of_nat (S k))) = true ->
  Z.of_nat (S k) < maxAttempts p ->
  wait env (Z.of_nat (S k)) (b (backoff.wrapUint (Z.of_nat (S k))))
  = Some waitErr ->
  Execute env p
  = Some (mkExecuteResult
            (Returns
               (zero env,
                Some (mkRetryError (prefixAttempts env p (S k))
                        (Some waitErr))))
            (metricsReporter (globalMetrics env) p)
            (prefixCalls env p b k ++
             [RecordAttempt (attemptOf env p (Z.of_nat (S k)));
              RecordOutcome
                (mkOutcome (name p) (Z.of_nat (S k))
                   (time_Since (overallEnd env) (overallStart env))
                   OutcomeStatusError
                   (if errors.Is (Some waitErr) (Some context.DeadlineExceeded)
                    then OutcomeFailureReasonTimeout
                    else OutcomeFailureReasonCanceled))])).
Proof.
  intros Hreach Hs Hr Hlt Hw.
  destruct (Execute_unroll k Hreach) as (fuel & ->).
  replace (Z.of_nat k + 1) with (Z.of_nat (S k)) by lia.
  cbn [loop]. rewrite Hs, Hr. cbn [negb].
  apply Z.leb_gt in Hlt. rewrite Hlt, Hbackoff, Hw.
  cbn [Attempts TerminationError].
  unfold recordFinalOutcome.
  cbn [returned exit_calls exit_outcome exit_attemptCount withFailureReason
       Outcome_PolicyName Outcome_Status Outcome_FailureReason
       classifyContextError].
  rewrite prefixAttempts_S. rewrite <- app_assoc. reflexivity.
Qed.

End EngineProofs.

Section EngineTheorems.
Import retry retry_spec.

Context {T : Type}.

Lemma validPolicy_inv (p : Policy T) :
  validPolicy p ->
  1 <= maxAttempts p /\ in_int64 (maxAttempts p) /\
  exists b, backoff p = Some b.
Proof.
  unfold validPolicy, Validate. intros [Hv Hint].
  destruct (maxAttempts p <? 1) eqn:Hm; [discriminate|].
  apply Z.ltb_ge in Hm.
  destruct (backoff p) as [b|]; [|discriminate].
  split; [lia | split; [exact Hint | exists b; reflexivity]].
Qed.

(** C6: in an attempt whose context is live and in which the function
    returns the value v and a nil error, (1) when the result predicate is
    set and holds of v, the attempt is a failure with status error, Error =
    ErrResultPredicateRetry, FailureReason = result and Retryable = true;
    (2) when the predicate is absent or false on v, the attempt is a
    success, and when the attempts before it continued (in a run of
    Execute that makes attempts: the allocation that execute starts with
    succeeds), Execute returns v and a nil error, its last two calls on the
    reporter being the attempt record and a success Outcome. *)
Theorem result_predicate_decides (env : Env T) (p : Policy T)
  (b : backoff.Backoff) (k : nat) (v : T) :
  attemptCtxErr env (Z.of_nat (S k)) = None ->
  fn env (Z.of_nat (S k)) = (v, None) ->
  (forall predicate,
     retryOnResultPredicate p = Some predicate -> predicate v = true ->
     success (executeAttempt env p (Z.of_nat (S k))) = false /\
     retryable (executeAttempt env p (Z.of_nat (S k))) = true /\
     Attempt_Status (attemptOf env p (Z.of_nat (S k))) = AttemptStatusError /\
     Attempt_Error (attemptOf env p (Z.of_nat (S k)))
     = Some ErrResultPredicateRetry /\
     Attempt_FailureReason (attemptOf env p (Z.of_nat (S k)))
     = "result"%string /\
     Retryable (attemptOf env p (Z.of_nat (S k))) = true) /\
  (retryOnResultPredicate p = None \/
   (exists predicate,
      retryOnResultPredicate p = Some predicate /\ predicate v = false) ->
   success (executeAttempt env p (Z.of_nat (S k))) = true /\
   result (executeAttempt env p (Z.of_nat (S k))) = v /\
   Attempt_Status (attemptOf env p (Z.of_nat (S k))) = AttemptStatusSuccess /\
   (backoff p = Some b -> in_int64 (maxAttempts p) -> allocates env p ->
    reaches env p b k ->
    Execute env p
    = Some (mkExecuteResult (Returns (v, None))
              (metricsReporter (globalMetrics env) p)
              (prefixCalls env p b k ++
               [RecordAttempt (attemptOf env p (Z.of_nat (S k)));
                RecordOutcome
                  (mkOutcome (name p) (Z.of_nat (S k))
                     (time_Since (overallEnd env) (overallStart env))
                     OutcomeStatusSuccess EmptyString)])))).
Proof.
  intros Hctx Hfn.
  assert (Hsafe : safeExecute env (Z.of_nat (S k)) = (v, None)).
  { unfold safeExecute. rewrite Hctx. exact Hfn. }
  split.
  - intros predicate Hp Hv. unfold attemptOf, executeAttempt.
    rewrite Hsafe, Hp, Hv. cbn. repeat split; reflexivity.
  - intros Hno.
    assert (Hao : executeAttempt env p (Z.of_nat (S k))
                  = mkAttemptOutcome v
                      (mkAttempt (name p) (Z.of_nat (S k))
                         (attemptStart env (Z.of_nat (S k)))
                         (time_Since (attemptEnd env (Z.of_nat (S k)))
                            (attemptStart env (Z.of_nat (S k))))
                         AttemptStatusSuccess EmptyString None false)
                      true false).
    { unfold executeAttempt. rewrite Hsafe.
      destruct Hno as [Hp | (predicate & Hp & Hv)]; rewrite Hp;
        [|rewrite Hv]; reflexivity. }
    unfold attemptOf. rewrite Hao. cbn [success result attempt Attempt_Status].
    repeat split.
    intros Hb Hint Halloc Hreach.
    destruct (Execute_unroll env p b Hb Hint Halloc k Hreach) as (fuel & ->).
    replace (Z.of_nat k + 1) with (Z.of_nat (S k)) by lia.
    cbn [loop]. rewrite Hao. cbn [success result attempt].
    unfold recordFinalOutcome.
    cbn [returned exit_calls exit_outcome exit_attemptCount withStatus
         Outcome_PolicyName Outcome_Status Outcome_FailureReason].
    rewrite <- app_assoc. reflexivity.
Qed.


End EngineTheorems.

Section EngineWitnesses.
Import retry retry_spec scenarios.

Lemma policy3_valid : validPolicy policy3.
Proof.
  unfold validPolicy.
  split; [reflexivity | unfold in_int64, MinInt64, MaxInt64; simpl; lia].
Defined.


(** C4 fails for the valid policy whose maxAttempts is MaxInt64: Validate
    accepts it, and the allocation of a slice of that capacity panics
    before the deferred report is registered. Execute does not return and
    no Outcome is reported. *)
Lemma Execute_panics_without_outcome :
  let p := mkPolicy "p" None MaxInt64 0 (Some fixed) None None [] [] in
  validPolicy p /\
  exists r,
    Execute failing p = Some r /\
    exec_returned r = Panics /\
    exec_calls r = [] /\
    countCalls isRecordOutcome (exec_calls r) = 0%nat.
Proof.
  intros p. split.
  - unfold validPolicy.
    split; [reflexivity|].
    unfold in_int64, p. cbn [maxAttempts]. unfold MinInt64, MaxInt64. lia.
  - assert (H : makeAttempts failing (maxAttempts p) = Panics) by reflexivity.
    eexists. split.
    + unfold Execute, execute_fuel. rewrite H. reflexivity.
    + repeat split.
Qed.

Lemma Execute_canceled_during_backoff_witness :
  Execute canceled policy3
  = Some (mkExecuteResult
            (Returns
               (0,
                Some (mkRetryError (prefixAttempts canceled policy3 2)
                        (Some context.Canceled))))
            1%positive
            (prefixCalls canceled policy3 fixed 1 ++
             [RecordAttempt (attemptOf canceled policy3 2);
              RecordOutcome
                (mkOutcome "p" 2 100 OutcomeStatusError
                   OutcomeFailureReasonCanceled)])).
Proof.
  apply (Execute_canceled_during_backoff canceled policy3 fixed eq_refl
           (proj2 policy3_valid) eq_refl 1 context.Canceled).
  - intros i Hi. assert (i = 1%nat) as -> by lia.
    repeat split; reflexivity.
  - reflexivity.
  - reflexivity.
  - reflexivity.
  - reflexivity.
Defined.


Lemma result_predicate_decides_witness :
  (Attempt_Error (attemptOf badThenGood policyBad 1)
   = Some ErrResultPredicateRetry /\
   Attempt_FailureReason (attemptOf badThenGood policyBad 1)
   = "result"%string /\
   Retryable (attemptOf badThenGood policyBad 1) = true) /\
  Execute badThenGood policyBad
  = Some (mkExecuteResult (Returns ("good"%string, None)) 1%positive
            (prefixCalls badThenGood policyBad fixed 1 ++
             [RecordAttempt (attemptOf badThenGood policyBad 2);
              RecordOutcome
                (mkOutcome "p" 2 100 OutcomeStatusSuccess EmptyString)])).
Proof.
  assert (Hint : in_int64 (maxAttempts policyBad))
    by (unfold in_int64, MinInt64, MaxInt64; simpl; lia).
  destruct (result_predicate_decides badThenGood policyBad fixed
              0 "bad"%string eq_refl eq_refl) as [A _].
  destruct (result_predicate_decides badThenGood policyBad fixed
              1 "good"%string eq_refl eq_refl) as [_ B].
  split.
  - destruct (A isBad eq_refl eq_refl) as (_ & _ & _ & A1 & A2 & A3).
    split; [exact A1 | split; [exact A2 | exact A3]].
  - destruct B as (_ & _ & _ & B1).
    + right. exists isBad. split; reflexivity.
    + apply (B1 eq_refl Hint eq_refl). intros i Hi.
      assert (i = 1%nat) as -> by lia.
      repeat split; reflexivity.
Defined.

End EngineWitnesses.

(** ** The exponential backoff *)

Section BackoffProofs.
Import backoff.















End BackoffProofs.

(** * Further properties *)

(** ** The count window as a sliding window *)

Section SlidingWindow.
Import circuitbreaker window_spec window_more.

Lemma mostRecent_all {A : Type} (n : nat) (l : list A) :
  (List.length l <= n)%nat -> mostRecent n l = l.
Proof.
  intros H. unfold mostRecent.
  replace (List.length l - n)%nat with 0%nat by lia. reflexivity.
Qed.

Lemma mostRecent_length {A : Type} (n : nat) (l : list A) :
  List.length (mostRecent n l) = Nat.min n (List.length l).
Proof. unfold mostRecent. rewrite length_skipn. lia. Qed.

Lemma mostRecent_snoc_full {A : Type} (n : nat) (l : list A) (x : A) :
  (n <= List.length l)%nat ->
  mostRecent (S n) (l ++ [x]) = mostRecent n l ++ [x].
Proof.
  intros H. unfold mostRecent. rewrite length_app. cbn [List.length].
  replace (List.length l + 1 - S n)%nat with (List.length l - n)%nat by lia.
  rewrite skipn_app.
  replace (List.length l - n - List.length l)%nat with 0%nat by lia.
  reflexivity.
Qed.

(** One record turns the ring of a window into the ring after one more
    outcome. *)
Lemma ringAfter_snoc (n : nat) (outcomes : list CallOutcome)
  (o : CallOutcome) :
  (0 < n)%nat ->
  exists old rest,
    ringAfter n outcomes = old :: rest /\
    ringAfter n (outcomes ++ [o]) = rest ++ [Some o].
Proof.
  intros Hn. unfold ringAfter.
  destruct (Nat.le_gt_cases n (List.length outcomes)) as [Hfull | Hroom].
  - replace (n - List.length outcomes)%nat with 0%nat by lia.
    replace (n - List.length (outcomes ++ [o]))%nat with 0%nat
      by (rewrite length_app; cbn [List.length]; lia).
    cbn [repeat app].
    destruct n as [|m]; [lia|].
    assert (Hm : (m <= List.length outcomes)%nat) by lia.
    rewrite (mostRecent_snoc_full m outcomes o Hm), map_app. cbn [map].
    unfold mostRecent.
    remember (skipn (List.length outcomes - S m) outcomes) as kept eqn:Hk.
    assert (Hlen : List.length kept = S m)
      by (subst kept; rewrite length_skipn; lia).
    destruct kept as [|x kept']; [discriminate|].
    exists (Some x), (map Some kept'). split; [reflexivity|].
    f_equal. f_equal.
    replace (List.length outcomes - m)%nat
      with (1 + (List.length outcomes - S m))%nat by lia.
    rewrite <- skipn_skipn, <- Hk. reflexivity.
  - rewrite (mostRecent_all n outcomes) by lia.
    rewrite (mostRecent_all n (outcomes ++ [o]))
      by (rewrite length_app; cbn [List.length]; lia).
    rewrite length_app. cbn [List.length].
    replace (n - List.length outcomes)%nat
      with (S (n - (List.length outcomes + 1)))%nat by lia.
    cbn [repeat app].
    exists None,
      (repeat None (n - (List.length outcomes + 1)) ++ map Some outcomes).
    split; [reflexivity|].
    rewrite map_app, app_assoc. reflexivity.
Qed.

Lemma recordAll_snoc (outcomes : list CallOutcome) (o : CallOutcome)
  (w : CountWindow) :
  recordAll (outcomes ++ [o]) w
  = bindC (recordAll outcomes w) (CountWindow_RecordOutcome o).
Proof.
  unfold recordAll. rewrite map_app, applyOps_app. cbn [map applyOps].
  destruct (applyOps (map OpRecord outcomes) w) as [w1|]; cbn [bindC];
    [|reflexivity].
  cbn [applyOp]. destruct (CountWindow_RecordOutcome o w1); reflexivity.
Qed.

(** The ring of a window after a run of records. *)
Lemma recordAll_ring (capacity : Z) (outcomes : list CallOutcome) :
  0 < capacity <= MaxInt32 ->
  exists w,
    recordAll outcomes (NewCountWindow capacity) = Returns w /\
    WindowInv capacity w /\
    ring w = ringAfter (Z.to_nat capacity) outcomes.
Proof.
  intros Hcap.
  induction outcomes as [|o outcomes IH] using rev_ind.
  - exists (NewCountWindow capacity).
    split; [reflexivity | split; [apply WindowInv_New; lia|]].
    unfold ringAfter, mostRecent. cbn. rewrite app_nil_r, Nat.sub_0_r.
    reflexivity.
  - destruct IH as (w & Hrun & Hinv & Hring).
    rewrite recordAll_snoc, Hrun. cbn [bindC].
    destruct (WindowInv_Record capacity o w Hcap Hinv) as (w' & Hrec & Hinv').
    exists w'. split; [exact Hrec | split; [exact Hinv'|]].
    destruct (ringAfter_snoc (Z.to_nat capacity) outcomes o)
      as (old & rest & Hold & Hnew); [lia|].
    rewrite Hnew. unfold CountWindow_RecordOutcome in Hrec.
    rewrite Hring, Hold in Hrec.
    injection Hrec as <-. cbn [ring].
    destruct o; reflexivity.
Qed.

Lemma countSlots_ringAfter f (n : nat) (outcomes : list CallOutcome) :
  f None = false ->
  countSlots f (ringAfter n outcomes)
  = countSlots f (map Some (mostRecent n outcomes)).
Proof.
  intros Hf. unfold ringAfter.
  rewrite countSlots_app, countSlots_repeat_None by exact Hf. lia.
Qed.

Lemma countSlots_filled_map (l : list CallOutcome) :
  countSlots isFilledSlot (map Some l) = Z.of_nat (List.length l).
Proof.
  induction l as [|o l IH]; cbn [map countSlots isFilledSlot List.length];
    lia.
Qed.

(** X1: on a window of a capacity between 1 and MaxInt32, after any run of
    records the counters describe exactly the [capacity] most recent
    outcomes: older ones have been forgotten, and Size() is the smaller of
    the number of records and the capacity. *)
Theorem CountWindow_counts_most_recent (capacity : Z)
  (outcomes : list CallOutcome) :
  0 < capacity <= MaxInt32 ->
  exists w,
    recordAll outcomes (NewCountWindow capacity) = Returns w /\
    successCount w
    = countSlots isSuccessSlot
        (map Some (mostRecent (Z.to_nat capacity) outcomes)) /\
    failureCount w
    = countSlots isFailureSlot
        (map Some (mostRecent (Z.to_nat capacity) outcomes)) /\
    slowCallCount w
    = countSlots isSlowSlot
        (map Some (mostRecent (Z.to_nat capacity) outcomes)) /\
    CountWindow_Size w = Z.min (Z.of_nat (List.length outcomes)) capacity.
Proof.
  intros Hcap.
  destruct (recordAll_ring capacity outcomes Hcap) as (w & Hrun & Hinv & Hring).
  exists w. split; [exact Hrun|].
  destruct (WindowInv_Size capacity w Hcap Hinv) as (Hsize & _).
  destruct Hinv as (_ & Hs & Hf & Hsl).
  rewrite Hring in Hs, Hf, Hsl.
  rewrite countSlots_ringAfter in Hs, Hf, Hsl by reflexivity.
  repeat split; try assumption.
  rewrite Hsize, Hs, Hf, countSlots_filled, countSlots_filled_map,
    mostRecent_length. lia.
Qed.

Lemma CountWindow_counts_most_recent_witness :
  0 < 2 <= MaxInt32 /\
  exists w,
    recordAll [OutcomeFailure; OutcomeSuccess; OutcomeSlowSuccess]
      (NewCountWindow 2) = Returns w /\
    successCount w
    = countSlots isSuccessSlot
        (map Some
           (mostRecent (Z.to_nat 2)
              [OutcomeFailure; OutcomeSuccess; OutcomeSlowSuccess])) /\
    failureCount w
    = countSlots isFailureSlot
        (map Some
           (mostRecent (Z.to_nat 2)
              [OutcomeFailure; OutcomeSuccess; OutcomeSlowSuccess])) /\
    slowCallCount w
    = countSlots isSlowSlot
        (map Some
           (mostRecent (Z.to_nat 2)
              [OutcomeFailure; OutcomeSuccess; OutcomeSlowSuccess])) /\
    CountWindow_Size w
    = Z.min
        (Z.of_nat
           (List.length [OutcomeFailure; OutcomeSuccess; OutcomeSlowSuccess]))
        2.
Proof.
  split.
  - unfold MaxInt32; lia.
  - apply (CountWindow_counts_most_recent 2); unfold MaxInt32; lia.
Defined.

End SlidingWindow.

Section WindowEdges.
Import circuitbreaker window_spec window_more.

Lemma ring_New_nonpositive (size : Z) : size <= 0 -> ring_New size = [].
Proof.
  intros H. unfold ring_New. replace (Z.to_nat size) with 0%nat by lia.
  reflexivity.
Qed.

(** X2: a count window created with a size that is not positive has a nil
    ring: its Size() is 0, Reset leaves it as it is, and RecordOutcome
    panics, before and after a Reset. *)
Theorem CountWindow_nonpositive_size_panics (size : Z)
  (outcome : CallOutcome) :
  size <= 0 ->
  CountWindow_Size (NewCountWindow size) = 0 /\
  CountWindow_Reset (NewCountWindow size) = NewCountWindow size /\
  CountWindow_RecordOutcome outcome (NewCountWindow size) = Panics /\
  CountWindow_RecordOutcome outcome (CountWindow_Reset (NewCountWindow size))
  = Panics.
Proof.
  intros H. unfold NewCountWindow, CountWindow_Reset, CountWindow_RecordOutcome.
  cbn [ring]. rewrite (ring_New_nonpositive size H). repeat split.
Qed.

Lemma CountWindow_nonpositive_size_panics_witness :
  0 <= 0 /\
  CountWindow_Size (NewCountWindow 0) = 0 /\
  CountWindow_Reset (NewCountWindow 0) = NewCountWindow 0 /\
  CountWindow_RecordOutcome OutcomeSuccess (NewCountWindow 0) = Panics /\
  CountWindow_RecordOutcome OutcomeSuccess
    (CountWindow_Reset (NewCountWindow 0)) = Panics.
Proof.
  split; [lia|].
  apply (CountWindow_nonpositive_size_panics 0 OutcomeSuccess). lia.
Defined.



(** X4: on a window of a capacity between 1 and MaxInt32, whatever was
    recorded, Reset gives back the window as NewCountWindow built it: same
    capacity, every slot empty, counters at zero. *)
Theorem CountWindow_Reset_restores (capacity : Z) (ops : list WindowOp) :
  0 < capacity <= MaxInt32 ->
  applyOps (ops ++ [OpReset]) (NewCountWindow capacity)
  = Returns (NewCountWindow capacity).
Proof.
  intros Hcap.
  destruct (WindowInv_applyOps capacity ops Hcap (NewCountWindow capacity))
    as (w & Hrun & (Hlen & _)); [apply WindowInv_New; lia|].
  rewrite applyOps_app, Hrun. cbn [bindC applyOps applyOp].
  unfold CountWindow_Reset, NewCountWindow. rewrite Hlen. reflexivity.
Qed.

Lemma CountWindow_Reset_restores_witness :
  0 < 3 <= MaxInt32 /\
  applyOps ([OpRecord OutcomeSlowFailure; OpRecord OutcomeSuccess] ++ [OpReset])
    (NewCountWindow 3)
  = Returns (NewCountWindow 3).
Proof.
  split.
  - unfold MaxInt32; lia.
  - apply (CountWindow_Reset_restores 3); unfold MaxInt32; lia.
Defined.

End WindowEdges.

(** ** The breaker's state machine *)

Section BreakerMore.
Import circuitbreaker breaker_spec breaker_more.

Context {any : Type}.

(** X5: in the HalfOpen state, a completed call whose error is not one of
    the breaker's rejections counts as a completed lease. When the count
    reaches PermittedNumberOfCallsInHalfOpenState the breaker leaves
    HalfOpen: to Open when a threshold is met on the window that holds the
    call, to Closed otherwise, and the window is reset and the transition
    time stamped; MinimumNumberOfCalls plays no part. Below the permitted
    number the breaker stays HalfOpen and keeps the window. *)
Theorem after_half_open_completion (cb : circuitBreakerImpl any)
  (now : Time) (result : any) (e : error) (duration : Duration)
  (w : Window) :
  state any cb = StateHalfOpen ->
  IsCallNotPermittedError e = false ->
  in_int64 (halfOpenCompletedLeases any cb + 1) ->
  RecordOutcome (classifyCall cb result e duration) (window any cb)
    = Returns w ->
  exists cb',
    after now result e duration cb = Returns cb' /\
    (PermittedNumberOfCallsInHalfOpenState any (config any cb)
     <= halfOpenCompletedLeases any cb + 1 ->
     (thresholdsExceeded (config any cb) w -> state any cb' = StateOpen) /\
     (~ thresholdsExceeded (config any cb) w -> state any cb' = StateClosed) /\
     window any cb' = Reset w /\ transitionTime any cb' = now) /\
    (halfOpenCompletedLeases any cb + 1
     < PermittedNumberOfCallsInHalfOpenState any (config any cb) ->
     state any cb' = StateHalfOpen /\
     halfOpenCompletedLeases any cb' = halfOpenCompletedLeases any cb + 1 /\
     window any cb' = w /\
     transitionTime any cb' = transitionTime any cb).
Proof.
  intros Hhalf Hrej Hint Hrec.
  unfold after. rewrite Hrec, Hhalf, Hrej. cbn [State_eqb andb negb].
  rewrite wrap64_id by exact Hint.
  eexists; split; [reflexivity|].
  unfold evaluateStateTransitionUnsafe.
  cbn [state config halfOpenCompletedLeases].
  match goal with
  | |- context [areThresholdsExceededUnsafe ?c] =>
      pose proof (areThresholdsExceeded_iff c) as Hthr
  end.
  cbn [config window] in Hthr.
  destruct (PermittedNumberOfCallsInHalfOpenState any (config any cb) <=?
            halfOpenCompletedLeases any cb + 1) eqn:Hp.
  - apply Z.leb_le in Hp. split; [intros _ | intros; lia].
    match goal with
    | |- context [areThresholdsExceededUnsafe ?c] =>
        destruct (areThresholdsExceededUnsafe c) eqn:Hex
    end; unfold setStateUnsafe; cbn [state State_eqb window transitionTime].
    + repeat split; try reflexivity. intros Hn. exfalso. apply Hn.
      apply Hthr. reflexivity.
    + repeat split; try reflexivity. intros Hy. apply Hthr in Hy.
      discriminate.
  - apply Z.leb_gt in Hp. split; [intros; lia | intros _].
    cbn [state halfOpenCompletedLeases window transitionTime].
    repeat split.
Qed.

(** X6: in the HalfOpen state, a call handed to [after] with one of the
    breaker's own rejection errors is recorded in the window like any other
    call, but is not counted as a completed lease. *)
Theorem after_half_open_rejection (cb : circuitBreakerImpl any)
  (now : Time) (result : any) (e : error) (duration : Duration)
  (w : Window) :
  state any cb = StateHalfOpen ->
  IsCallNotPermittedError e = true ->
  halfOpenCompletedLeases any cb
  < PermittedNumberOfCallsInHalfOpenState any (config any cb) ->
  RecordOutcome (classifyCall cb result e duration) (window any cb)
    = Returns w ->
  after now result e duration cb
  = Returns (mkBreaker (name any cb) w (config any cb) StateHalfOpen
               (transitionTime any cb) (halfOpenCompletedLeases any cb)
               (halfOpenLeases any cb)).
Proof.
  intros Hhalf Hrej Hlt Hrec.
  unfold after. rewrite Hrec, Hhalf, Hrej. cbn [State_eqb andb negb].
  unfold evaluateStateTransitionUnsafe.
  cbn [state config halfOpenCompletedLeases].
  apply Z.leb_gt in Hlt. rewrite Hlt. reflexivity.
Qed.

End BreakerMore.

Section BreakerInvariants.
Import circuitbreaker breaker_spec breaker_more.

Context {any : Type}.

Lemma before_half_open_step (tSince tNow : Time)
  (cb : circuitBreakerImpl any) :
  state any cb = StateHalfOpen ->
  0 <= halfOpenLeases any cb <= MaxInt64 ->
  before tSince tNow cb
  = if halfOpenLeases any cb =? 0
    then (Some ErrHalfOpenState, cb)
    else (None,
          mkBreaker (name any cb) (window any cb) (config any cb)
            StateHalfOpen (transitionTime any cb)
            (halfOpenCompletedLeases any cb) (halfOpenLeases any cb - 1)).
Proof.
  intros Hhalf Hl. unfold before. rewrite Hhalf. cbn [State_eqb andb].
  rewrite Hhalf.
  destruct (halfOpenLeases any cb =? 0) eqn:E.
  - apply Z.eqb_eq in E. rewrite E. reflexivity.
  - apply Z.eqb_neq in E.
    replace (halfOpenLeases any cb <=? 0) with false
      by (symmetry; apply Z.leb_gt; lia).
    rewrite wrap64_id by (unfold in_int64, MinInt64, MaxInt64 in *; lia).
    reflexivity.
Qed.

(** X7: a HalfOpen breaker that holds n leases admits the next n calls of
    [before] and rejects every later one with ErrHalfOpenState, whatever
    the clock says; the calls change nothing but the lease count. *)
Theorem before_admits_exactly_the_leases (readings : list (Time * Time)) :
  forall cb : circuitBreakerImpl any,
  state any cb = StateHalfOpen ->
  0 <= halfOpenLeases any cb <= MaxInt64 ->
  beforeAll readings cb
  = (repeat None
       (Nat.min (List.length readings) (Z.to_nat (halfOpenLeases any cb))) ++
     repeat (Some ErrHalfOpenState)
       (List.length readings - Z.to_nat (halfOpenLeases any cb)),
     mkBreaker (name any cb) (window any cb) (config any cb) StateHalfOpen
       (transitionTime any cb) (halfOpenCompletedLeases any cb)
       (Z.max 0 (halfOpenLeases any cb - Z.of_nat (List.length readings)))).
Proof.
  induction readings as [|[t1 t2] rest IH]; intros cb Hhalf Hl.
  - cbn [beforeAll List.length Nat.min Nat.sub repeat app].
    replace (Z.max 0 (halfOpenLeases any cb - Z.of_nat 0))
      with (halfOpenLeases any cb) by lia.
    destruct cb; cbn in *; subst; reflexivity.
  - cbn [beforeAll]. rewrite before_half_open_step by assumption.
    destruct (halfOpenLeases any cb =? 0) eqn:E.
    + apply Z.eqb_eq in E. rewrite IH by assumption. rewrite E.
      cbn [Z.to_nat List.length]. rewrite !Nat.min_0_r, !Nat.sub_0_r.
      cbn [repeat app]. f_equal. f_equal. lia.
    + apply Z.eqb_neq in E.
      rewrite IH by (cbn [state halfOpenLeases]; try reflexivity; lia).
      cbn [name window config transitionTime halfOpenCompletedLeases
           halfOpenLeases List.length].
      replace (Z.to_nat (halfOpenLeases any cb))
        with (S (Z.to_nat (halfOpenLeases any cb - 1))) by lia.
      cbn [Nat.min Nat.sub repeat app]. f_equal. f_equal. lia.
Qed.

Lemma setStateUnsafe_not_metrics_only (now : Time) (st : State)
  (cb : circuitBreakerImpl any) :
  st <> StateMetricsOnly -> state any cb <> StateMetricsOnly ->
  state any (setStateUnsafe now st cb) <> StateMetricsOnly.
Proof. intros Hst _. rewrite setStateUnsafe_state. exact Hst. Qed.

Lemma before_not_metrics_only (t1 t2 : Time) (cb : circuitBreakerImpl any) :
  state any cb <> StateMetricsOnly ->
  state any (snd (before t1 t2 cb)) <> StateMetricsOnly.
Proof.
  intros H. unfold before.
  destruct (State_eqb (state any cb) StateOpen &&
            (WaitDurationInOpenState any (config any cb) <=?
             time_Since t1 (transitionTime any cb))).
  - unfold setStateUnsafe.
    destruct (State_eqb (state any cb) StateHalfOpen) eqn:E.
    + apply State_eqb_eq in E. rewrite E.
      destruct (halfOpenLeases any cb <=? 0); cbn; rewrite ?E; discriminate.
    + cbn [state State_eqb halfOpenLeases].
      destruct (PermittedNumberOfCallsInHalfOpenState any (config any cb)
                <=? 0); cbn; discriminate.
  - destruct (state any cb) eqn:E; try (cbn; rewrite ?E; congruence).
    destruct (halfOpenLeases any cb <=? 0); cbn; rewrite ?E; discriminate.
Qed.

Lemma after_not_metrics_only (now : Time) (result : any) (e : error)
  (duration : Duration) (cb cb' : circuitBreakerImpl any) :
  state any cb <> StateMetricsOnly ->
  after now result e duration cb = Returns cb' ->
  state any cb' <> StateMetricsOnly.
Proof.
  intros H Hafter. unfold after in Hafter.
  destruct (RecordOutcome _ _) as [w|]; [|discriminate].
  injection Hafter as <-.
  unfold evaluateStateTransitionUnsafe. cbn [state].
  destruct (state any cb) eqn:E; try congruence; cbn [State_eqb andb].
  - destruct (_ && _); [rewrite setStateUnsafe_state; discriminate|].
    cbn [state]. discriminate.
  - destruct (_ <=? _); [|cbn [state]; discriminate].
    destruct (areThresholdsExceededUnsafe _);
      rewrite setStateUnsafe_state; discriminate.
  - cbn [state]. discriminate.
Qed.

(** X8: no breaker that New returns is ever in the state StateMetricsOnly,
    whatever options built it and whatever calls of [before] and [after]
    it has served. *)
Theorem breaker_never_metrics_only (name : string)
  (opts : list (Option any)) (ops : list (BreakerOp any))
  (cb' : circuitBreakerImpl any) :
  applyBreakerOps ops (New name opts) = Returns cb' ->
  state any cb' <> StateMetricsOnly.
Proof.
  assert (Hgen : forall (l : list (BreakerOp any)) cb,
             state any cb <> StateMetricsOnly ->
             applyBreakerOps l cb = Returns cb' ->
             state any cb' <> StateMetricsOnly).
  { induction l as [|op l IH]; intros cb H Hrun; cbn [applyBreakerOps] in Hrun.
    - injection Hrun as <-. exact H.
    - destruct op as [t1 t2 | c]; cbn [applyBreakerOp bindC] in Hrun.
      + apply (IH _ (before_not_metrics_only t1 t2 cb H) Hrun).
      + destruct (after _ _ _ _ cb) as [cb1|] eqn:Ha; cbn [bindC] in Hrun;
          [|discriminate].
        apply (IH cb1); [|exact Hrun].
        apply (after_not_metrics_only _ _ _ _ cb cb1 H Ha). }
  apply Hgen. discriminate.
Qed.

(** X9: [after] never moves an Open breaker: completed calls are recorded
    in its window, and its state, transition time and lease counts stay as
    they are. Only [before] leaves the Open state. *)
Theorem after_keeps_open (calls : list (CompletedCall any)) :
  forall cb cb' : circuitBreakerImpl any,
  state any cb = StateOpen ->
  afterAll calls cb = Returns cb' ->
  state any cb' = StateOpen /\
  transitionTime any cb' = transitionTime any cb /\
  halfOpenLeases any cb' = halfOpenLeases any cb /\
  halfOpenCompletedLeases any cb' = halfOpenCompletedLeases any cb.
Proof.
  induction calls as [|c calls IH]; intros cb cb' Hopen Hrun;
    cbn [afterAll] in Hrun.
  - injection Hrun as <-. auto.
  - unfold after in Hrun at 1.
    destruct (RecordOutcome _ _) as [w|]; cbn [bindC] in Hrun; [|discriminate].
    rewrite Hopen in Hrun. cbn [State_eqb andb] in Hrun.
    unfold evaluateStateTransitionUnsafe in Hrun. cbn [state bindC] in Hrun.
    apply IH in Hrun; [|reflexivity].
    cbn [transitionTime halfOpenLeases halfOpenCompletedLeases] in Hrun.
    exact Hrun.
Qed.

(** X10: [after] either keeps the state, the recorded window and the
    transition time, or changes the state, resets the recorded window and
    stamps the transition time with the clock reading. *)
Theorem after_transition_resets_window (now : Time) (result : any)
  (e : error) (duration : Duration) (cb cb' : circuitBreakerImpl any)
  (w : Window) :
  RecordOutcome (classifyCall cb result e duration) (window any cb)
    = Returns w ->
  after now result e duration cb = Returns cb' ->
  (state any cb' = state any cb /\ window any cb' = w /\
   transitionTime any cb' = transitionTime any cb) \/
  (state any cb' <> state any cb /\ window any cb' = Reset w /\
   transitionTime any cb' = now).
Proof.
  intros Hrec Hafter. unfold after in Hafter. rewrite Hrec in Hafter.
  injection Hafter as <-.
  unfold evaluateStateTransitionUnsafe, setStateUnsafe.
  cbn [state config window halfOpenCompletedLeases].
  destruct (state any cb) eqn:E; cbn [State_eqb andb negb];
    repeat match goal with
           | |- context [if ?c then _ else _] => destruct c
           end;
    cbn [state window transitionTime];
    try (left; repeat split; reflexivity);
    right; repeat split; discriminate.
Qed.

End BreakerInvariants.

Section FailureClassification.
Import circuitbreaker breaker_spec breaker_more.

Context {any : Type}.

Lemma breaker_matchesAny_iff (e : error) (targets : list error) :
  matchesAny e targets = true <-> matchesOneOf e targets.
Proof.
  unfold matchesOneOf. induction targets as [|t rest IH]; cbn [matchesAny].
  - split; [discriminate | intros (x & [] & _)].
  - destruct (errors.Is e t) eqn:E.
    + split; [intros _; exists t; split; [left; reflexivity | exact E]
             | reflexivity].
    + rewrite IH. split.
      * intros (x & Hin & Hx). exists x. split; [right; exact Hin | exact Hx].
      * intros (x & [Heq | Hin] & Hx).
        -- subst x. congruence.
        -- exists x. split; assumption.
Qed.


(** X11: how the breaker decides that a call failed. Without an error the
    call fails exactly when FailOnResultPredicate is set and holds of the
    result. With an error it fails when FailOnErrorPredicate holds of it, or
    when it matches a FailErrors entry, even one that IgnoreErrors also
    lists; an error the predicate rejects is still a failure unless it
    matches an IgnoreErrors entry and no FailErrors entry. *)
Theorem shouldFailCall_spec (cb : circuitBreakerImpl any) (result : any)
  (e : error) :
  (e = None ->
   shouldFailCall cb result e
   = match FailOnResultPredicate any (config any cb) with
     | Some predicate => predicate result
     | None => false
     end) /\
  (forall x predicate,
     e = Some x ->
     FailOnErrorPredicate any (config any cb) = Some predicate ->
     predicate x = true -> shouldFailCall cb result e = true) /\
  (e <> None -> matchesOneOf e (FailErrors any (config any cb)) ->
   shouldFailCall cb result e = true) /\
  (e <> None -> ~ matchesOneOf e (IgnoreErrors any (config any cb)) ->
   shouldFailCall cb result e = true) /\
  (forall x,
     e = Some x ->
     match FailOnErrorPredicate any (config any cb) with
     | Some predicate => predicate x = false
     | None => True
     end ->
     ~ matchesOneOf e (FailErrors any (config any cb)) ->
     matchesOneOf e (IgnoreErrors any (config any cb)) ->
     shouldFailCall cb result e = false).
Proof.
  unfold shouldFailCall.
  split; [|split; [|split; [|split]]].
  - intros ->. reflexivity.
  - intros x predicate -> Hp Hx. rewrite Hp, Hx. reflexivity.
  - intros He Hm. destruct e as [x|]; [|congruence].
    apply breaker_matchesAny_iff in Hm. rewrite Hm.
    destruct (FailOnErrorPredicate any (config any cb)) as [f|];
      [destruct (f x)|]; reflexivity.
  - intros He Hm. destruct e as [x|]; [|congruence].
    rewrite <- breaker_matchesAny_iff in Hm.
    destruct (matchesAny (Some x) (IgnoreErrors any (config any cb)));
      [congruence|].
    destruct (FailOnErrorPredicate any (config any cb)) as [f|];
      [destruct (f x)|];
      destruct (matchesAny (Some x) (FailErrors any (config any cb)));
      reflexivity.
  - intros x -> Hp Hf Hi.
    rewrite <- breaker_matchesAny_iff in Hf.
    apply breaker_matchesAny_iff in Hi. rewrite Hi.
    destruct (matchesAny (Some x) (FailErrors any (config any cb)));
      [congruence|].
    destruct (FailOnErrorPredicate any (config any cb)) as [f|];
      [rewrite Hp|]; reflexivity.
Qed.

End FailureClassification.

Section BreakerMoreWitnesses.
Import circuitbreaker breaker_spec breaker_more breaker_scenarios.

Lemma default_thresholds_not_exceeded :
  ~ thresholdsExceeded (defaultConfig unit) (holding OutcomeSuccess 1 0 0).
Proof.
  unfold thresholdsExceeded. cbn. intros [H | H]; apply H; reflexivity.
Defined.

Lemma after_half_open_completion_witness :
  exists cb',
    after 200 tt None 0 halfOpenNine = Returns cb' /\
    state unit cb' = StateClosed /\
    window unit cb' = Reset (holding OutcomeSuccess 1 0 0) /\
    transitionTime unit cb' = 200.
Proof.
  destruct (after_half_open_completion halfOpenNine 200 tt None 0
              (holding OutcomeSuccess 1 0 0))
    as (cb' & Hafter & Hfull & _).
  - reflexivity.
  - reflexivity.
  - unfold in_int64, MinInt64, MaxInt64; simpl; lia.
  - reflexivity.
  - exists cb'. split; [exact Hafter|].
    destruct Hfull as (_ & Hclosed & Hwin & Htime).
    + simpl; lia.
    + split; [exact (Hclosed default_thresholds_not_exceeded)|].
      split; assumption.
Defined.

Lemma after_half_open_rejection_witness :
  after 200 tt (Some ErrOpenState) 0 halfOpenThree
  = Returns (mkBreaker "cb" (holding OutcomeFailure 0 1 0)
               (defaultConfig unit) StateHalfOpen 100 0 3).
Proof.
  apply (after_half_open_rejection halfOpenThree 200 tt (Some ErrOpenState) 0
           (holding OutcomeFailure 0 1 0)).
  - reflexivity.
  - reflexivity.
  - simpl; lia.
  - reflexivity.
Defined.

Lemma before_admits_exactly_the_leases_witness :
  fst (beforeAll [(1, 1); (2, 2); (3, 3); (4, 4); (5, 5)] halfOpenThree)
  = [None; None; None; Some ErrHalfOpenState; Some ErrHalfOpenState].
Proof.
  rewrite (before_admits_exactly_the_leases
             [(1, 1); (2, 2); (3, 3); (4, 4); (5, 5)] halfOpenThree).
  - reflexivity.
  - reflexivity.
  - unfold MaxInt64; simpl; lia.
Defined.

Lemma breaker_never_metrics_only_witness :
  let cb' := mkBreaker "cb"
               (CountWindow_Window
                  (mkCountWindow (repeat None 99 ++ [Some OutcomeSuccess])
                     1 0 0))
               (applyOption unit WithMetricsOnlyMode (defaultConfig unit))
               StateClosed zeroTime 0 0 in
  applyBreakerOps [OpBefore 1 1; OpAfter goodCall]
    (New "cb" [WithMetricsOnlyMode]) = Returns cb' /\
  state unit cb' <> StateMetricsOnly.
Proof.
  intros cb'.
  assert (Hrun : applyBreakerOps [OpBefore 1 1; OpAfter goodCall]
                   (New "cb" [WithMetricsOnlyMode]) = Returns cb')
    by reflexivity.
  split; [exact Hrun|].
  exact (breaker_never_metrics_only "cb" [WithMetricsOnlyMode]
           [OpBefore 1 1; OpAfter goodCall] cb' Hrun).
Defined.

Lemma after_keeps_open_witness :
  let cb' := mkBreaker "cb" (holding OutcomeFailure 0 1 0)
               (defaultConfig unit) StateOpen 100 0 0 in
  afterAll [failedCall] openBreaker = Returns cb' /\
  state unit cb' = StateOpen /\
  transitionTime unit cb' = transitionTime unit openBreaker /\
  halfOpenLeases unit cb' = halfOpenLeases unit openBreaker /\
  halfOpenCompletedLeases unit cb'
  = halfOpenCompletedLeases unit openBreaker.
Proof.
  intros cb'.
  assert (Hrun : afterAll [failedCall] openBreaker = Returns cb')
    by reflexivity.
  split; [exact Hrun|].
  exact (after_keeps_open [failedCall] openBreaker cb' eq_refl Hrun).
Defined.

Lemma after_transition_resets_window_witness :
  let cb := New (any:=unit) "cb" [WithMinimumNumberOfCalls 1] in
  let w := CountWindow_Window
             (mkCountWindow (repeat None 99 ++ [Some OutcomeFailure]) 0 1 0) in
  exists cb',
    after 200 tt (Some (errorString 9 "boom")) 0 cb = Returns cb' /\
    ((state unit cb' = state unit cb /\ window unit cb' = w /\
      transitionTime unit cb' = transitionTime unit cb) \/
     (state unit cb' <> state unit cb /\ window unit cb' = Reset w /\
      transitionTime unit cb' = 200)).
Proof.
  intros cb w.
  exists (mkBreaker "cb" (Reset w)
            (applyOption unit (WithMinimumNumberOfCalls 1)
               (defaultConfig unit))
            StateOpen 200 0 0).
  assert (Hafter : after 200 tt (Some (errorString 9 "boom")) 0 cb
                   = Returns (mkBreaker "cb" (Reset w)
                                (applyOption unit (WithMinimumNumberOfCalls 1)
                                   (defaultConfig unit))
                                StateOpen 200 0 0)) by reflexivity.
  split; [exact Hafter|].
  apply (after_transition_resets_window 200 tt (Some (errorString 9 "boom")) 0
           cb _ w); [reflexivity | exact Hafter].
Defined.

Lemma shouldFailCall_spec_witness :
  shouldFailCall listsBreaker tt (scenarios.wrapped scenarios.E1) = true /\
  shouldFailCall listsBreaker tt (scenarios.wrapped scenarios.E2) = false /\
  shouldFailCall listsBreaker tt (Some (errorString 9 "boom")) = true.
Proof.
  assert (HnotFail : ~ matchesOneOf (scenarios.wrapped scenarios.E2)
                         (FailErrors unit (config unit listsBreaker))).
  { intros (t & [<- | []] & H). discriminate H. }
  assert (HnotIgnore : ~ matchesOneOf (Some (errorString 9 "boom"))
                           (IgnoreErrors unit (config unit listsBreaker))).
  { intros (t & [<- | [<- | []]] & H); discriminate H. }
  destruct (shouldFailCall_spec listsBreaker tt
              (scenarios.wrapped scenarios.E1)) as (_ & _ & A & _).
  destruct (shouldFailCall_spec listsBreaker tt
              (scenarios.wrapped scenarios.E2)) as (_ & _ & _ & _ & B).
  destruct (shouldFailCall_spec listsBreaker tt
              (Some (errorString 9 "boom"))) as (_ & _ & _ & C & _).
  split; [|split].
  - apply A; [discriminate|].
    exists (Some scenarios.E1). split; [left; reflexivity | reflexivity].
  - apply (B _ eq_refl I HnotFail).
    exists (Some scenarios.E2).
    split; [right; left; reflexivity | reflexivity].
  - apply C; [discriminate | exact HnotIgnore].
Defined.

End BreakerMoreWitnesses.

(** ** The breaker's executor *)

Section ExecutorMore.
Import circuitbreaker breaker_spec breaker_more executor_more.

Context {any : Type}.






End ExecutorMore.

Section ExecutorMoreWitnesses.
Import circuitbreaker breaker_spec breaker_more executor_more
  breaker_scenarios.




End ExecutorMoreWitnesses.

(** ** Building policies *)

Section PolicyMore.
Import retry retry_spec policy_more.

Context {T : Type}.

Lemma fold_keeps_name (opts : list (Option T)) :
  forall p : Policy T,
  name (fold_left (fun p option => applyOption option p) opts p) = name p.
Proof.
  induction opts as [|opt opts IH]; intros p; cbn [fold_left];
    [reflexivity|].
  rewrite IH. destruct opt; reflexivity.
Qed.

Lemma fold_keeps_maxAttempts (opts : list (Option T)) :
  forall p : Policy T,
  forallb (fun opt => negb (isWithMaxAttempts opt)) opts = true ->
  maxAttempts (fold_left (fun p option => applyOption option p) opts p)
  = maxAttempts p.
Proof.
  induction opts as [|opt opts IH]; intros p H; cbn [fold_left forallb] in *;
    [reflexivity|].
  apply andb_true_iff in H as [Ho Hrest].
  rewrite IH by exact Hrest.
  destruct opt; cbn in *; congruence.
Qed.

Lemma fold_keeps_backoff (opts : list (Option T)) :
  forall p : Policy T,
  forallb (fun opt => negb (isWithBackoff opt)) opts = true ->
  backoff (fold_left (fun p option => applyOption option p) opts p)
  = backoff p.
Proof.
  induction opts as [|opt opts IH]; intros p H; cbn [fold_left forallb] in *;
    [reflexivity|].
  apply andb_true_iff in H as [Ho Hrest].
  rewrite IH by exact Hrest.
  destruct opt; cbn in *; congruence.
Qed.

Lemma fold_keeps_errorPredicate (opts : list (Option T)) :
  forall p : Policy T,
  forallb (fun opt => negb (isWithRetryOnErrorPredicate opt)) opts = true ->
  retryOnErrorPredicate
    (fold_left (fun p option => applyOption option p) opts p)
  = retryOnErrorPredicate p.
Proof.
  induction opts as [|opt opts IH]; intros p H; cbn [fold_left forallb] in *;
    [reflexivity|].
  apply andb_true_iff in H as [Ho Hrest].
  rewrite IH by exact Hrest.
  destruct opt; cbn in *; congruence.
Qed.

(** X15: what NewPolicy accepts. (1) Every policy it returns has the given
    name, maxAttempts at least 1 and a backoff. (2) When the last
    WithMaxAttempts gives a number below 1 it returns the validation error
    of the field maxAttempts, whatever the backoff is. (3) With no
    WithMaxAttempts, when the last WithBackoff gives a nil backoff it
    returns the validation error of the field backoff. (4) With neither
    option the policy has 3 attempts and the linear backoff of 100ms. *)
Theorem NewPolicy_validation (policyName : string)
  (pre post : list (Option T)) :
  (forall (options : list (Option T)) (p : Policy T),
     NewPolicy policyName options = inl p ->
     name p = policyName /\ 1 <= maxAttempts p /\
     exists b, backoff p = Some b) /\
  (forall n,
     forallb (fun opt => negb (isWithMaxAttempts opt)) post = true ->
     n < 1 ->
     NewPolicy policyName (pre ++ WithMaxAttempts n :: post)
     = inr (mkValidationError "maxAttempts" "must be at least 1")) /\
  (forallb (fun opt => negb (isWithMaxAttempts opt)) (pre ++ post) = true ->
   forallb (fun opt => negb (isWithBackoff opt)) post = true ->
   NewPolicy policyName (pre ++ WithBackoff None :: post)
   = inr (mkValidationError "backoff" "backoff must be set")) /\
  (forall options : list (Option T),
     forallb (fun opt => negb (isWithMaxAttempts opt)) options = true ->
     forallb (fun opt => negb (isWithBackoff opt)) options = true ->
     exists p,
       NewPolicy policyName options = inl p /\
       maxAttempts p = 3 /\ backoff p = Some defaultBackoff).
Proof.
  split; [|split; [|split]].
  - intros options p Hnew. unfold NewPolicy, Validate in Hnew.
    destruct (maxAttempts _ <? 1) eqn:Hm; [discriminate|].
    destruct (backoff _) as [b|] eqn:Hb; [|discriminate].
    injection Hnew as <-. apply Z.ltb_ge in Hm.
    split; [apply fold_keeps_name | split; [exact Hm | exists b; exact Hb]].
  - intros n Hpost Hn. unfold NewPolicy, Validate.
    rewrite fold_left_app. cbn [fold_left].
    rewrite fold_keeps_maxAttempts by exact Hpost. cbn [applyOption maxAttempts].
    apply Z.ltb_lt in Hn. rewrite Hn. reflexivity.
  - intros Hmax Hpost. unfold NewPolicy, Validate.
    rewrite forallb_app in Hmax. apply andb_true_iff in Hmax as [Hm1 Hm2].
    rewrite fold_left_app. cbn [fold_left].
    rewrite fold_keeps_maxAttempts by exact Hm2. cbn [applyOption maxAttempts].
    rewrite fold_keeps_maxAttempts by exact Hm1. cbn [maxAttempts].
    rewrite fold_keeps_backoff by exact Hpost. reflexivity.
  - intros options Hmax Hb. unfold NewPolicy, Validate.
    rewrite fold_keeps_maxAttempts by exact Hmax. cbn [maxAttempts].
    rewrite fold_keeps_backoff by exact Hb. cbn [backoff Z.ltb Z.compare].
    eexists; split; [reflexivity|].
    rewrite fold_keeps_maxAttempts by exact Hmax.
    rewrite fold_keeps_backoff by exact Hb. split; reflexivity.
Qed.

Lemma rejection_of_before {any : Type} (t1 t2 : Time)
  (cb : circuitbreaker.circuitBreakerImpl any) (e : err) :
  fst (circuitbreaker.before t1 t2 cb) = Some e ->
  e = circuitbreaker.ErrOpenState \/ e = circuitbreaker.ErrHalfOpenState.
Proof.
  unfold circuitbreaker.before.
  match goal with
  | |- context [circuitbreaker.state any ?c] =>
      destruct (circuitbreaker.state any c)
  end; cbn [fst]; try discriminate.
  - destruct (_ <=? 0); cbn [fst]; [|discriminate].
    intros H; injection H as <-. right; reflexivity.
  - intros H; injection H as <-. left; reflexivity.
Qed.

(** X16: a policy built by NewCircuitAwarePolicy from options that set
    neither ignoreErrors nor an error predicate never retries a call that
    the circuit breaker rejected: ShouldRetryError is false on the error
    that the breaker's Execute returns when [before] refuses the call, be
    it ErrOpenState or ErrHalfOpenState. *)
Theorem circuit_aware_policy_stops_on_rejection (policyName : string)
  (opts : list (Option T)) (p : Policy T) :
  NewCircuitAwarePolicy policyName opts = inl p ->
  forallb (fun opt => negb (isWithIgnoreErrors opt)) opts = true ->
  forallb (fun opt => negb (isWithRetryOnErrorPredicate opt)) opts = true ->
  forall (any : Type) (env : circuitbreaker.ExecEnv) (zero : any)
         (cb : circuitbreaker.circuitBreakerImpl any)
         (fn : circuitbreaker.FnBehaviour any),
    fst (circuitbreaker.before (circuitbreaker.tSince env)
           (circuitbreaker.tTransitionBefore env) cb) <> None ->
    circuitbreaker.exec_err any (circuitbreaker.Execute env zero cb fn)
    <> None /\
    ShouldRetryError p
      (circuitbreaker.exec_err any (circuitbreaker.Execute env zero cb fn))
    = false.
Proof.
  intros Hnew Hign Hpred any env zero cb fn Hrej.
  unfold NewCircuitAwarePolicy, NewPolicy in Hnew.
  destruct (Validate _) in Hnew; [discriminate|]. injection Hnew as <-.
  cbn [app fold_left].
  unfold circuitbreaker.Execute.
  destruct (circuitbreaker.before _ _ cb) as [[e|] cb1] eqn:Hb;
    cbn [fst] in Hrej; [|congruence].
  cbn [circuitbreaker.exec_err]. split; [discriminate|].
  unfold ShouldRetryError.
  rewrite fold_keeps_errorPredicate by exact Hpred.
  rewrite fold_keeps_ignoreErrors by exact Hign.
  cbn [applyOption retryOnErrorPredicate ignoreErrors].
  assert (He : e = circuitbreaker.ErrOpenState \/
               e = circuitbreaker.ErrHalfOpenState).
  { apply (rejection_of_before (circuitbreaker.tSince env)
             (circuitbreaker.tTransitionBefore env) cb).
    rewrite Hb. reflexivity. }
  destruct He as [-> | ->]; reflexivity.
Qed.

(** X17: WithIgnoreErrors given to NewCircuitAwarePolicy replaces the
    breaker's two rejection errors instead of adding to them: the policy's
    ignoreErrors are the arguments of the last WithIgnoreErrors, and when
    these do not match ErrOpenState (and neither an error predicate nor
    retryErrors is set) the policy retries the calls that an open breaker
    rejects. *)
Theorem circuit_aware_policy_ignore_list_replaced (policyName : string)
  (pre post : list (Option T)) (errs : list error) (p : Policy T) :
  NewCircuitAwarePolicy policyName (pre ++ WithIgnoreErrors errs :: post)
  = inl p ->
  forallb (fun opt => negb (isWithIgnoreErrors opt)) post = true ->
  ignoreErrors p = errs /\
  (retryOnErrorPredicate p = None -> retryErrors p = [] ->
   ~ matchesSome (Some circuitbreaker.ErrOpenState) errs ->
   ShouldRetryError p (Some circuitbreaker.ErrOpenState) = true).
Proof.
  intros Hnew Hpost.
  assert (Hign : ignoreErrors p = errs).
  { unfold NewCircuitAwarePolicy, NewPolicy in Hnew.
    destruct (Validate _) in Hnew; [discriminate|]. injection Hnew as <-.
    cbn [app fold_left]. rewrite fold_left_app. cbn [fold_left].
    rewrite fold_keeps_ignoreErrors by exact Hpost. reflexivity. }
  split; [exact Hign|].
  intros Hp Hr Hm. unfold ShouldRetryError. rewrite Hp, Hign, Hr.
  apply matchesAny_false_iff in Hm. rewrite Hm. reflexivity.
Qed.

End PolicyMore.

Section PolicyMoreWitnesses.
Import retry retry_spec policy_more scenarios.

Lemma NewPolicy_validation_witness :
  (name (mkPolicy (T:=unit) "p" None 5 0 (Some defaultBackoff) None None [] [])
   = "p"%string /\
   1 <= 5 /\ exists b, Some defaultBackoff = Some b) /\
  NewPolicy (T:=unit) "p" ([] ++ WithMaxAttempts 0 :: [WithBackoff None])
  = inr (mkValidationError "maxAttempts" "must be at least 1") /\
  NewPolicy (T:=unit) "p" ([WithRetryErrors []] ++ WithBackoff None :: [])
  = inr (mkValidationError "backoff" "backoff must be set") /\
  exists p,
    NewPolicy (T:=unit) "p" [WithIgnoreErrors [Some E1]] = inl p /\
    maxAttempts p = 3 /\ backoff p = Some defaultBackoff.
Proof.
  destruct (NewPolicy_validation (T:=unit) "p" [] [WithBackoff None])
    as (A & B & _ & D).
  destruct (NewPolicy_validation (T:=unit) "p" [WithRetryErrors []] [])
    as (_ & _ & C & _).
  split; [|split; [|split]].
  - apply (A [WithMaxAttempts 5]). reflexivity.
  - apply B; [reflexivity | lia].
  - apply C; reflexivity.
  - apply D; reflexivity.
Defined.

Lemma circuit_aware_policy_stops_on_rejection_witness :
  let p := mkPolicy (T:=unit) "p" None 5 0 (Some defaultBackoff) None None []
             [Some circuitbreaker.ErrOpenState;
              Some circuitbreaker.ErrHalfOpenState] in
  let env := circuitbreaker.mkExecEnv 200 201 202 203 204 None 1 in
  NewCircuitAwarePolicy "p" [WithMaxAttempts 5] = inl p /\
  ShouldRetryError p
    (circuitbreaker.exec_err unit
       (circuitbreaker.Execute env tt breaker_scenarios.openBreaker
          (circuitbreaker.FnReturns tt None)))
  = false.
Proof.
  intros p env.
  assert (Hnew : NewCircuitAwarePolicy "p" [WithMaxAttempts 5] = inl p)
    by reflexivity.
  split; [exact Hnew|].
  apply (circuit_aware_policy_stops_on_rejection "p" [WithMaxAttempts 5] p
           Hnew eq_refl eq_refl unit env tt breaker_scenarios.openBreaker
           (circuitbreaker.FnReturns tt None)).
  discriminate.
Defined.

Lemma circuit_aware_policy_ignore_list_replaced_witness :
  let p := mkPolicy (T:=unit) "p" None 3 0 (Some defaultBackoff) None None []
             [Some E1] in
  NewCircuitAwarePolicy "p" ([] ++ WithIgnoreErrors [Some E1] :: []) = inl p /\
  ignoreErrors p = [Some E1] /\
  ShouldRetryError p (Some circuitbreaker.ErrOpenState) = true.
Proof.
  intros p.
  assert (Hnew : NewCircuitAwarePolicy "p"
                   ([] ++ WithIgnoreErrors [Some E1] :: []) = inl p)
    by reflexivity.
  split; [exact Hnew|].
  destruct (circuit_aware_policy_ignore_list_replaced "p" [] [] [Some E1] p
              Hnew eq_refl) as [A B].
  split; [exact A|].
  apply B; [reflexivity | reflexivity |].
  intros (t & [<- | []] & H). discriminate H.
Defined.

End PolicyMoreWitnesses.

(** ** The shape of a retry sequence *)

Section EngineShape.
Import retry retry_spec engine_more.

Context {T : Type}.
Variables (env : Env T) (p : Policy T) (b : backoff.Backoff).
Hypothesis Hbackoff : backoff p = Some b.
Hypothesis Hint : in_int64 (maxAttempts p).
Hypothesis Halloc : allocates env p.

(** From attempt [k + 1] on, with enough fuel, the loop is left in some
    attempt [j + 1] with the shape [exitShape]. *)
Lemma loop_shape (fuel : nat) :
  forall k : nat,
  reaches env p b k ->
  Z.of_nat (S k) <= Z.max 1 (maxAttempts p) ->
  Z.max 1 (maxAttempts p) - Z.of_nat (S k) < Z.of_nat fuel ->
  exists j x,
    reaches env p b j /\
    Z.of_nat (S j) <= Z.max 1 (maxAttempts p) /\
    loop env p fuel (Z.of_nat (S k))
      (mkRetryError (prefixAttempts env p k) None) (initialOutcome p)
      (prefixCalls env p b k) = Some x /\
    exitShape env p b j x.
Proof.
  induction fuel as [|fuel IH]; intros k Hreach Hle Hfuel.
  - simpl in Hfuel. lia.
  - destruct (success (executeAttempt env p (Z.of_nat (S k)))) eqn:Hs.
    { exists k. eexists. split; [exact Hreach | split; [exact Hle|]].
      cbn [loop]. rewrite Hs. split; [reflexivity|].
      unfold exitShape.
      cbn [exit_calls exit_attemptCount exit_outcome returned withStatus
           initialOutcome Outcome_PolicyName Outcome_Status
           Outcome_FailureReason].
      repeat split; try reflexivity. exact Hs. }
    destruct (retryable (executeAttempt env p (Z.of_nat (S k)))) eqn:Hr.
    2:{ exists k. eexists. split; [exact Hreach | split; [exact Hle|]].
        cbn [loop]. rewrite Hs, Hr. cbn [negb]. split; [reflexivity|].
        unfold exitShape.
        cbn [exit_calls exit_attemptCount exit_outcome returned
             withFailureReason initialOutcome Outcome_PolicyName
             Outcome_Status Outcome_FailureReason Attempts TerminationError].
        rewrite prefixAttempts_S.
        repeat split; try reflexivity; try exact Hs.
        left. repeat split; try reflexivity; exact Hr. }
    destruct (maxAttempts p <=? Z.of_nat (S k)) eqn:Hmax.
    { exists k. eexists. split; [exact Hreach | split; [exact Hle|]].
      cbn [loop]. rewrite Hs, Hr, Hmax. cbn [negb]. split; [reflexivity|].
      unfold exitShape.
      cbn [exit_calls exit_attemptCount exit_outcome returned
           withFailureReason initialOutcome Outcome_PolicyName
           Outcome_Status Outcome_FailureReason Attempts TerminationError].
      rewrite prefixAttempts_S. apply Z.leb_le in Hmax.
      repeat split; try reflexivity; try exact Hs.
      right; left. repeat split; try reflexivity; assumption. }
    apply Z.leb_gt in Hmax.
    destruct (wait env (Z.of_nat (S k)) (b (backoff.wrapUint (Z.of_nat (S k)))))
      as [waitErr|] eqn:Hw.
    { exists k. eexists. split; [exact Hreach | split; [exact Hle|]].
      cbn [loop]. rewrite Hs, Hr. cbn [negb].
      apply Z.leb_gt in Hmax as Hmax'. rewrite Hmax', Hbackoff, Hw.
      split; [reflexivity|].
      unfold exitShape.
      cbn [exit_calls exit_attemptCount exit_outcome returned
           withFailureReason initialOutcome Outcome_PolicyName
           Outcome_Status Outcome_FailureReason Attempts TerminationError].
      rewrite prefixAttempts_S.
      repeat split; try reflexivity; try exact Hs.
      right; right. repeat split; try assumption.
      exists waitErr. repeat split; try reflexivity. exact Hw. }
    assert (Hcont : continues env p b (Z.of_nat (S k)))
      by (repeat split; assumption).
    assert (Hreach' : reaches env p b (S k)).
    { intros i Hi. destruct (Nat.eq_dec i (S k)) as [-> | Hne];
        [exact Hcont | apply Hreach; lia]. }
    destruct (IH (S k) Hreach') as (j & x & Hj & Hjle & Hloop & Hshape);
      [lia | lia |].
    exists j, x. split; [exact Hj | split; [exact Hjle|]].
    split; [|exact Hshape].
    rewrite (loop_continue env p b Hbackoff Hint) by (try lia; exact Hcont).
    cbn [Attempts TerminationError].
    rewrite <- prefixAttempts_S, <- prefixCalls_S.
    replace (Z.of_nat (S k) + 1) with (Z.of_nat (S (S k))) by lia.
    exact Hloop.
Qed.

(** [Execute], for any policy with a backoff whose attempts slice can be
    allocated, in terms of the shape. *)
Lemma Execute_shape_aux :
  exists j x,
    reaches env p b j /\
    Z.of_nat (S j) <= Z.max 1 (maxAttempts p) /\
    exitShape env p b j x /\
    Execute env p
    = Some (mkExecuteResult (returned x)
              (metricsReporter (globalMetrics env) p)
              (recordFinalOutcome env x)).
Proof.
  destruct (loop_shape (Z.to_nat (Z.max 1 (maxAttempts p))) 0)
    as (j & x & Hj & Hle & Hloop & Hshape).
  - intros i Hi. lia.
  - lia.
  - lia.
  - exists j, x. split; [exact Hj | split; [exact Hle | split; [exact Hshape|]]].
    unfold Execute, execute_fuel. rewrite Halloc.
    change (mkOutcome (name p) 0 0 OutcomeStatusError EmptyString)
      with (initialOutcome p).
    change (Z.of_nat 1) with 1 in Hloop.
    cbn [prefixAttempts prefixCalls seq map flat_map] in Hloop.
    rewrite Hloop. reflexivity.
Qed.


End EngineShape.

Section EngineMore.
Import retry retry_spec engine_more.

Context {T : Type}.



Lemma failed_attempt_has_error (env : Env T) (p : Policy T) (i : Z) :
  success (executeAttempt env p i) = false ->
  Attempt_Error (attemptOf env p i) <> None /\
  Attempt_Status (attemptOf env p i) = AttemptStatusError.
Proof.
  unfold attemptOf, executeAttempt.
  destruct (safeExecute env i) as [r e].
  destruct e as [x|]; cbn [andb negb].
  - intros _. cbn. split; [discriminate | reflexivity].
  - destruct (retryOnResultPredicate p) as [f|]; [|discriminate].
    destruct (f r); cbn; [|discriminate].
    intros _. split; [discriminate | reflexivity].
Qed.

(** A run that returns has allocated its attempts slice. *)
Lemma returned_allocates (env : Env T) (p : Policy T) (r : ExecuteResult T)
  (x : T * option RetryError) :
  Execute env p = Some r -> exec_returned r = Returns x -> allocates env p.
Proof.
  unfold Execute, execute_fuel, allocates.
  destruct (makeAttempts env (maxAttempts p)) as [l|] eqn:E.
  - intros _ _. unfold makeAttempts in E.
    destruct ((0 <=? maxAttempts p) &&
              (maxAttempts p * sizeofAttempt <=? maxAlloc) &&
              (maxAttempts p * sizeofAttempt <=? freeMemory env));
      [injection E as <-; reflexivity | discriminate].
  - intros H Hr. injection H as <-. discriminate.
Qed.

Lemma Unwrap_snoc (l : list Attempt) (a : Attempt) :
  RetryError_Unwrap (mkRetryError (l ++ [a]) None) = Attempt_Error a.
Proof.
  unfold RetryError_Unwrap. cbn [TerminationError Attempts].
  destruct l as [|x l]; [reflexivity|].
  cbn [app]. rewrite last_last. reflexivity.
Qed.

(** X20: a failed sequence always carries its cause. For a valid policy,
    in every RetryError that Execute returns each attempt has the status
    error and an error that is not nil; Unwrap() is the TerminationError
    when the sequence was cut short during a wait (the last attempt's error
    is then not reachable through Unwrap), the error of the last attempt
    otherwise, and never nil; All() has one entry per attempt. *)
Theorem Execute_error_never_nil (env : Env T) (p : Policy T)
  (r : ExecuteResult T) (v : T) (retryErr : RetryError) :
  validPolicy p ->
  Execute env p = Some r ->
  exec_returned r = Returns (v, Some retryErr) ->
  Forall
    (fun a => Attempt_Error a <> None /\ Attempt_Status a = AttemptStatusError)
    (Attempts retryErr) /\
  RetryError_Unwrap retryErr <> None /\
  (forall t, TerminationError retryErr = Some t ->
             RetryError_Unwrap retryErr = Some t) /\
  (TerminationError retryErr = None ->
   exists earlier lastAttempt,
     Attempts retryErr = earlier ++ [lastAttempt] /\
     RetryError_Unwrap retryErr = Attempt_Error lastAttempt) /\
  List.length (RetryError_All retryErr) = List.length (Attempts retryErr).
Proof.
  intros Hvalid Hexec Hret.
  destruct (validPolicy_inv p Hvalid) as (Hmax & Hint & b & Hb).
  pose proof (returned_allocates env p r _ Hexec Hret) as Halloc.
  destruct (Execute_shape_aux env p b Hb Hint Halloc)
    as (j & x & Hj & Hle & Hshape & Hexec').
  rewrite Hexec in Hexec'. injection Hexec' as ->.
  cbn [exec_returned] in Hret.
  destruct Hshape as (_ & _ & _ & Hshape). rewrite Hret in Hshape.
  destruct Hshape as (Hs & _ & Hatt & _ & Hreason).
  assert (Hall : Forall
                   (fun a => Attempt_Error a <> None /\
                             Attempt_Status a = AttemptStatusError)
                   (Attempts retryErr)).
  { rewrite Hatt. unfold prefixAttempts. apply Forall_forall.
    intros a Ha. apply in_map_iff in Ha as (i & <- & Hi).
    apply in_seq in Hi. apply failed_attempt_has_error.
    destruct (Nat.eq_dec i (S j)) as [-> | Hne]; [exact Hs|].
    apply Hj. lia. }
  assert (Hlast : Attempts retryErr
                  = prefixAttempts env p j ++
                    [attemptOf env p (Z.of_nat (S j))])
    by (rewrite Hatt; apply prefixAttempts_S).
  assert (Hterm : forall t, TerminationError retryErr = Some t ->
                            RetryError_Unwrap retryErr = Some t).
  { intros t Ht. unfold RetryError_Unwrap. rewrite Ht. reflexivity. }
  assert (Hnone : TerminationError retryErr = None ->
                  RetryError_Unwrap retryErr
                  = Attempt_Error (attemptOf env p (Z.of_nat (S j)))).
  { intros Hn. destruct retryErr as [atts term]. cbn in Hn, Hlast.
    subst term atts. apply Unwrap_snoc. }
  split; [exact Hall | split; [|split; [exact Hterm | split]]].
  - destruct (TerminationError retryErr) as [t|] eqn:Ht.
    + rewrite (Hterm t eq_refl). discriminate.
    + rewrite (Hnone eq_refl).
      apply (failed_attempt_has_error env p _ Hs).
  - intros Hn. exists (prefixAttempts env p j), (attemptOf env p (Z.of_nat (S j))).
    split; [exact Hlast | exact (Hnone Hn)].
  - unfold RetryError_All. apply length_map.
Qed.

End EngineMore.

Section EngineExits.
Import retry retry_spec engine_more.

Context {T : Type}.
Variables (env : Env T) (p : Policy T) (b : backoff.Backoff).
Hypothesis Hbackoff : backoff p = Some b.
Hypothesis Hint : in_int64 (maxAttempts p).
Hypothesis Halloc : allocates env p.

(** X21: in a run of Execute that makes attempts (the allocation that
    execute starts with succeeds), when attempts 1..k continue and attempt
    k+1 fails with an error that is not retryable, Execute stops there: it returns a RetryError
    with the k+1 attempts and no TerminationError, calls no backoff after
    the last attempt, and reports the reason non_retryable, also when
    attempt k+1 was the last one allowed. *)
Theorem Execute_stops_on_non_retryable (k : nat) :
  reaches env p b k ->
  success (executeAttempt env p (Z.of_nat (S k))) = false ->
  retryable (executeAttempt env p (Z.of_nat (S k))) = false ->
  Execute env p
  = Some (mkExecuteResult
            (Returns
               (zero env, Some (mkRetryError (prefixAttempts env p (S k)) None)))
            (metricsReporter (globalMetrics env) p)
            (prefixCalls env p b k ++
             [RecordAttempt (attemptOf env p (Z.of_nat (S k)));
              RecordOutcome
                (mkOutcome (name p) (Z.of_nat (S k))
                   (time_Since (overallEnd env) (overallStart env))
                   OutcomeStatusError OutcomeFailureReasonNonRetryable)])).
Proof.
  intros Hreach Hs Hr.
  destruct (Execute_unroll env p b Hbackoff Hint Halloc k Hreach)
    as (fuel & ->).
  replace (Z.of_nat k + 1) with (Z.of_nat (S k)) by lia.
  cbn [loop]. rewrite Hs, Hr. cbn [negb].
  unfold recordFinalOutcome.
  cbn [returned exit_calls exit_outcome exit_attemptCount withFailureReason
       Outcome_PolicyName Outcome_Status Outcome_FailureReason Attempts
       TerminationError].
  rewrite prefixAttempts_S, <- app_assoc. reflexivity.
Qed.


End EngineExits.

Section EngineNoBackoff.
Import retry retry_spec engine_more.

Context {T : Type}.

(** X23: with a policy that has no backoff (one that did not pass
    Validate) and whose attempts slice the memory can hold, Execute panics
    when the first attempt fails retryably and another attempt is allowed: the call of Next on the nil backoff is the
    panic. The attempt has been reported, and the deferred function still
    reports the Outcome, with the status error and an empty reason. *)
Theorem Execute_nil_backoff_panics (env : Env T) (p : Policy T) :
  backoff p = None -> allocates env p ->
  success (executeAttempt env p 1) = false ->
  retryable (executeAttempt env p 1) = true ->
  1 < maxAttempts p ->
  Execute env p
  = Some (mkExecuteResult Panics (metricsReporter (globalMetrics env) p)
            [RecordAttempt (attemptOf env p 1);
             RecordOutcome
               (mkOutcome (name p) 1
                  (time_Since (overallEnd env) (overallStart env))
                  OutcomeStatusError EmptyString)]).
Proof.
  intros Hb Halloc Hs Hr Hmax. unfold Execute, execute_fuel.
  rewrite Halloc.
  replace (Z.to_nat (Z.max 1 (maxAttempts p)))
    with (S (Z.to_nat (Z.max 1 (maxAttempts p)) - 1)) by lia.
  cbn [loop]. rewrite Hs, Hr. cbn [negb].
  apply Z.leb_gt in Hmax. rewrite Hmax, Hb. reflexivity.
Qed.

End EngineNoBackoff.

Section EngineMoreWitnesses.
Import retry retry_spec engine_more scenarios engine_scenarios.



Lemma Execute_stops_on_non_retryable_witness :
  Execute failing policyIgnore
  = Some (mkExecuteResult
            (Returns
               (0, Some (mkRetryError (prefixAttempts failing policyIgnore 1)
                           None)))
            1%positive
            [RecordAttempt (attemptOf failing policyIgnore 1);
             RecordOutcome
               (mkOutcome "p" 1 100 OutcomeStatusError
                  OutcomeFailureReasonNonRetryable)]).
Proof.
  assert (Hint : in_int64 (maxAttempts policyIgnore))
    by (unfold in_int64, MinInt64, MaxInt64; simpl; lia).
  apply (Execute_stops_on_non_retryable failing policyIgnore fixed eq_refl
           Hint eq_refl 0).
  - intros i Hi. lia.
  - reflexivity.
  - reflexivity.
Defined.

Lemma Execute_nil_backoff_panics_witness :
  Execute failing policyNoBackoff
  = Some (mkExecuteResult Panics 1%positive
            [RecordAttempt (attemptOf failing policyNoBackoff 1);
             RecordOutcome
               (mkOutcome "p" 1 100 OutcomeStatusError EmptyString)]).
Proof.
  apply (Execute_nil_backoff_panics failing policyNoBackoff).
  - reflexivity.
  - reflexivity.
  - reflexivity.
  - reflexivity.
  - reflexivity.
Defined.



Lemma Execute_error_never_nil_witness :
  let retryErr := mkRetryError (prefixAttempts failing policy3 3) None in
  Execute failing policy3 = Some exhaustedResult /\
  RetryError_Unwrap retryErr <> None /\
  List.length (RetryError_All retryErr) = List.length (Attempts retryErr).
Proof.
  intros retryErr.
  assert (Hexec : Execute failing policy3 = Some exhaustedResult)
    by reflexivity.
  split; [exact Hexec|].
  destruct (Execute_error_never_nil failing policy3 exhaustedResult 0 retryErr
              policy3_valid Hexec eq_refl) as (_ & A & _ & _ & B).
  split; [exact A | exact B].
Defined.

End EngineMoreWitnesses.

(** ** The in-memory reporter *)

Section InMemoryProofs.
Import retry retry_spec engine_more inmemory.

Lemma countCalls_cons kind (c : MetricsCall) (calls : list MetricsCall) :
  countCalls kind (c :: calls)
  = ((if kind c then 1 else 0) + countCalls kind calls)%nat.
Proof. unfold countCalls. cbn [filter]. destruct (kind c); reflexivity. Qed.

Lemma countCalls_success_le (calls : list MetricsCall) :
  (countCalls isSuccessAttempt calls <= countCalls isRecordAttempt calls)%nat
  /\
  (countCalls isSuccessOutcome calls <= countCalls isRecordOutcome calls)%nat.
Proof.
  induction calls as [|c calls [IHa IHo]]; [split; reflexivity|].
  rewrite !countCalls_cons.
  destruct c as [a | o | n k d];
    cbn [isSuccessAttempt isRecordAttempt isSuccessOutcome isRecordOutcome];
    [destruct (Attempt_IsSuccess a) | destruct (Outcome_IsSuccess o) |];
    split; lia.
Qed.

(** The counters after a sequence of calls, while none of them wraps. *)
Lemma receiveAll_counts (calls : list MetricsCall) :
  forall m : InMemoryMetrics,
  countersConsistent m ->
  attemptsTotal m + Z.of_nat (countCalls isRecordAttempt calls) <= MaxInt64 ->
  outcomeTotal m + Z.of_nat (countCalls isRecordOutcome calls) <= MaxInt64 ->
  countersConsistent (receiveAll calls m) /\
  attemptsTotal (receiveAll calls m)
  = attemptsTotal m + Z.of_nat (countCalls isRecordAttempt calls) /\
  attemptsSuccess (receiveAll calls m)
  = attemptsSuccess m + Z.of_nat (countCalls isSuccessAttempt calls) /\
  outcomeTotal (receiveAll calls m)
  = outcomeTotal m + Z.of_nat (countCalls isRecordOutcome calls) /\
  outcomeSuccess (receiveAll calls m)
  = outcomeSuccess m + Z.of_nat (countCalls isSuccessOutcome calls).
Proof.
  unfold receiveAll.
  induction calls as [|c calls IH]; intros m Hm Ha Ho.
  - cbn. repeat split; try apply Hm; lia.
  - rewrite !countCalls_cons in *. cbn [fold_left].
    destruct Hm as (H1 & H2 & H3 & H4 & H5 & H6).
    assert (Hc : countersConsistent (receive c m) /\
                 attemptsTotal (receive c m)
                 = attemptsTotal m + (if isRecordAttempt c then 1 else 0) /\
                 attemptsSuccess (receive c m)
                 = attemptsSuccess m + (if isSuccessAttempt c then 1 else 0) /\
                 outcomeTotal (receive c m)
                 = outcomeTotal m + (if isRecordOutcome c then 1 else 0) /\
                 outcomeSuccess (receive c m)
                 = outcomeSuccess m + (if isSuccessOutcome c then 1 else 0)).
    { unfold countersConsistent.
      destruct c as [a | o | n k d];
        cbn [receive InMemory_RecordAttempt InMemory_RecordOutcome
             InMemory_RecordBackoff isRecordAttempt isSuccessAttempt
             isRecordOutcome isSuccessOutcome attemptsTotal attemptsSuccess
             attemptsFailure outcomeTotal outcomeSuccess outcomeFailure] in *.
      - destruct (Attempt_IsSuccess a);
          rewrite !wrap64_id
            by (unfold in_int64, MinInt64, MaxInt64 in *; lia);
          repeat split; lia.
      - destruct (Outcome_IsSuccess o);
          rewrite !wrap64_id
            by (unfold in_int64, MinInt64, MaxInt64 in *; lia);
          repeat split; lia.
      - repeat split; lia. }
    destruct Hc as (Hc & Ea & Es & Eo & Eos).
    destruct (IH (receive c m) Hc) as (Hr & Ra & Rs & Ro & Ros).
    + rewrite Ea. destruct (isRecordAttempt c); lia.
    + rewrite Eo. destruct (isRecordOutcome c); lia.
    + split; [exact Hr|].
      rewrite Ra, Rs, Ro, Ros, Ea, Es, Eo, Eos.
      destruct (isRecordAttempt c), (isSuccessAttempt c),
        (isRecordOutcome c), (isSuccessOutcome c);
        repeat split; lia.
Qed.

(** X24: an InMemoryMetrics that starts at zero counts what it receives:
    as long as neither total passes MaxInt64, attempts_total is the number
    of attempt records received and outcome_total the number of Outcome
    records, and in both families successes and failures are not negative
    and add up to the total. *)
Theorem InMemoryMetrics_counts (calls : list MetricsCall) :
  Z.of_nat (countCalls isRecordAttempt calls) <= MaxInt64 ->
  Z.of_nat (countCalls isRecordOutcome calls) <= MaxInt64 ->
  let m := receiveAll calls NewInMemoryMetrics in
  attemptsTotal m = Z.of_nat (countCalls isRecordAttempt calls) /\
  outcomeTotal m = Z.of_nat (countCalls isRecordOutcome calls) /\
  0 <= attemptsSuccess m /\ 0 <= attemptsFailure m /\
  attemptsSuccess m + attemptsFailure m = attemptsTotal m /\
  0 <= outcomeSuccess m /\ 0 <= outcomeFailure m /\
  outcomeSuccess m + outcomeFailure m = outcomeTotal m.
Proof.
  intros Ha Ho m.
  destruct (receiveAll_counts calls NewInMemoryMetrics)
    as ((H1 & H2 & H3 & H4 & H5 & H6) & Ra & _ & Ro & _).
  - unfold countersConsistent. cbn. lia.
  - cbn. lia.
  - cbn. lia.
  - subst m. rewrite Ra, Ro in *. cbn [attemptsTotal outcomeTotal
      NewInMemoryMetrics] in *. repeat split; lia.
Qed.

Lemma InMemoryMetrics_counts_witness :
  let a := mkAttempt "p" 1 0 5 AttemptStatusSuccess EmptyString None false in
  let o := mkOutcome "p" 1 5 OutcomeStatusSuccess EmptyString in
  let m := receiveAll [RecordAttempt a; RecordOutcome o] NewInMemoryMetrics in
  attemptsTotal m = 1 /\ outcomeTotal m = 1 /\
  attemptsSuccess m + attemptsFailure m = attemptsTotal m /\
  outcomeSuccess m + outcomeFailure m = outcomeTotal m.
Proof.
  intros a o m.
  destruct (InMemoryMetrics_counts [RecordAttempt a; RecordOutcome o])
    as (A & B & _ & _ & C & _ & _ & D).
  - unfold MaxInt64; simpl; lia.
  - unfold MaxInt64; simpl; lia.
  - split; [exact A | split; [exact B | split; [exact C | exact D]]].
Defined.

End InMemoryProofs.

Section InMemoryAfterExecute.
Import retry retry_spec engine_more inmemory.

Context {T : Type}.




End InMemoryAfterExecute.

Section InMemoryAfterExecuteWitness.
Import retry retry_spec engine_more inmemory scenarios.


End InMemoryAfterExecuteWitness.

(** ** More on the backoff strategies *)

Section BackoffMore.
Import backoff.

(** X26: Linear.Next is the product of the attempt ordinal and the
    interval as long as both the ordinal and the product fit in an int64;
    it is then zero for attempt 0 and, for an interval that is not
    negative, grows with the attempt. An ordinal from 2^63 on is read as a
    negative number by the conversion to Duration. *)
Theorem Linear_Next_product (interval : Duration) :
  (forall attempt,
     0 <= attempt <= MaxInt64 -> in_int64 (attempt * interval) ->
     Linear_Next (NewLinear interval) attempt = attempt * interval) /\
  Linear_Next (NewLinear interval) 0 = 0 /\
  (forall a b,
     0 <= interval -> 0 <= a <= b -> b <= MaxInt64 ->
     b * interval <= MaxInt64 ->
     Linear_Next (NewLinear interval) a
     <= Linear_Next (NewLinear interval) b) /\
  (forall attempt,
     MaxInt64 < attempt < 18446744073709551616 ->
     in_int64 ((attempt - 18446744073709551616) * interval) ->
     Linear_Next (NewLinear interval) attempt
     = (attempt - 18446744073709551616) * interval).
Proof.
  assert (Hexact : forall attempt,
             0 <= attempt <= MaxInt64 -> in_int64 (attempt * interval) ->
             Linear_Next (NewLinear interval) attempt = attempt * interval).
  { intros attempt Ha Hp. unfold Linear_Next, NewLinear. cbn [Linear_interval].
    rewrite (wrap64_id attempt)
      by (unfold in_int64, MinInt64, MaxInt64 in *; lia).
    apply wrap64_id. exact Hp. }
  split; [exact Hexact | split; [reflexivity | split]].
  - intros a b Hi Hab Hb Hmax.
    assert (Hbp : in_int64 (b * interval))
      by (unfold in_int64, MinInt64 in *; nia).
    assert (Hap : in_int64 (a * interval))
      by (unfold in_int64, MinInt64 in *; nia).
    rewrite !Hexact by (try assumption; lia). nia.
  - intros attempt Ha Hp. unfold Linear_Next, NewLinear. cbn [Linear_interval].
    assert (Hw : wrap64 attempt = attempt - 18446744073709551616).
    { unfold wrap64, MaxInt64 in *.
      replace (attempt + 9223372036854775808)
        with (attempt - 9223372036854775808 + 1 * 18446744073709551616)
        by lia.
      rewrite Z.mod_add by lia. rewrite Z.mod_small by lia. lia. }
    rewrite Hw. apply wrap64_id. exact Hp.
Qed.

Lemma Linear_Next_product_witness :
  Linear_Next (NewLinear Second) 2 = 2 * Second /\
  Linear_Next (NewLinear Second) 1 <= Linear_Next (NewLinear Second) 3 /\
  Linear_Next (NewLinear Second) 18446744073709551615 = -1 * Second.
Proof.
  destruct (Linear_Next_product Second) as (A & _ & B & C).
  split; [|split].
  - apply A; unfold in_int64, MinInt64, MaxInt64, Second; lia.
  - apply B; unfold MaxInt64, Second; lia.
  - replace (-1 * Second)
      with ((18446744073709551615 - 18446744073709551616) * Second)
      by reflexivity.
    apply C; unfold in_int64, MinInt64, MaxInt64, Second; lia.
Defined.







End BackoffMore.

(** ** The cache client *)

Section CacheProofs.
Import cache.

Lemma Get_cons (store : Store) (rest : list Store) (key : bytes) :
  clientImpl_Get (store :: rest) key
  = match Store_Get store key with
    | (Some v, None, store') => (Some v, None, store' :: rest)
    | (_, _, store') =>
        match clientImpl_Get rest key with
        | (r, e, rest') => (r, e, store' :: rest')
        end
    end.
Proof.
  unfold clientImpl_Get at 1. cbn [executeOnAllStores].
  destruct (Store_Get store key) as [[[v|] [e|]] store']; reflexivity.
Qed.

(** X29: the cache client's Get asks the stores in order and returns the
    first value that a store gives without an error; stores that answer
    with an error or without a value are passed over, and the stores after
    the hit are not asked. When no store has the value the result is nil.
    In every case the error returned is nil: the errors of the stores are
    never reported. *)
Theorem cache_Get_first_hit (key : bytes) :
  (forall pre hit post v,
     Forall (misses key) pre ->
     fst (Store_Get hit key) = (Some v, None) ->
     clientImpl_Get (pre ++ hit :: post) key
     = (Some v, None, map (afterGet key) pre ++ afterGet key hit :: post)) /\
  (forall stores,
     Forall (misses key) stores ->
     clientImpl_Get stores key = (None, None, map (afterGet key) stores)) /\
  (forall stores, snd (fst (clientImpl_Get stores key)) = None).
Proof.
  split; [|split].
  - intros pre hit post v Hpre Hhit.
    induction Hpre as [|s pre Hs Hpre IH].
    + cbn [app map]. rewrite Get_cons. unfold afterGet.
      destruct (Store_Get hit key) as [[value e] s'].
      cbn [fst snd] in *. injection Hhit as -> ->. reflexivity.
    + cbn [app map]. rewrite Get_cons, IH. unfold misses, afterGet in *.
      destruct (Store_Get s key) as [[[x|] [e|]] s'];
        cbn [snd]; try reflexivity; contradiction.
  - intros stores Hall. induction Hall as [|s stores Hs Hall IH].
    + reflexivity.
    + cbn [map]. rewrite Get_cons, IH. unfold misses, afterGet in *.
      destruct (Store_Get s key) as [[[x|] [e|]] s'];
        cbn [snd]; try reflexivity; contradiction.
  - intros stores. induction stores as [|s stores IH]; [reflexivity|].
    rewrite Get_cons.
    destruct (Store_Get s key) as [[[x|] [e|]] s'];
      destruct (clientImpl_Get stores key) as [[r e'] rest'];
      cbn [fst snd] in *;
      try reflexivity; exact IH.
Qed.

Lemma executeOnAllStores_never_exits {T : Type} (zero : T)
  (stores : list Store) (step : Store -> error * Store) :
  executeOnAllStores zero stores
    (fun store => match step store with
                  | (e, store') => (zero, false, e, store')
                  end)
  = (zero, None, map (fun s => snd (step s)) stores).
Proof.
  induction stores as [|s stores IH]; [reflexivity|].
  cbn [executeOnAllStores map]. rewrite IH.
  destruct (step s) as [e s']. reflexivity.
Qed.

(** X30: the cache client's Set, MSet, Delete and MDelete call the method
    on every store, in order, whatever the earlier stores answered, and
    always return a nil error: a write that failed on some store, or on
    all of them, is reported as a success. *)
Theorem cache_writes_reach_all_stores (stores : list Store) :
  (forall key value,
     clientImpl_Set stores key value
     = (None, map (afterSet key value) stores)) /\
  (forall keys values,
     clientImpl_MSet stores keys values
     = (None, map (afterMSet keys values) stores)) /\
  (forall key,
     clientImpl_Delete stores key = (None, map (afterDelete key) stores)) /\
  (forall keys,
     clientImpl_MDelete stores keys
     = (None, map (afterMDelete keys) stores)).
Proof.
  split; [|split; [|split]]; intros.
  - unfold clientImpl_Set.
    rewrite (executeOnAllStores_never_exits tt stores
               (fun s => Store_Set s key value)). reflexivity.
  - unfold clientImpl_MSet.
    rewrite (executeOnAllStores_never_exits tt stores
               (fun s => Store_MSet s keys values)). reflexivity.
  - unfold clientImpl_Delete.
    rewrite (executeOnAllStores_never_exits tt stores
               (fun s => Store_Delete s key)). reflexivity.
  - unfold clientImpl_MDelete.
    rewrite (executeOnAllStores_never_exits tt stores
               (fun s => Store_MDelete s keys)). reflexivity.
Qed.

Lemma cache_writes_reach_all_stores_witness :
  let k := "k"%string in
  let down := listStore true [] in
  let up := listStore false [] in
  clientImpl_Set [down; up] k (Some "v"%string)
  = (None, [afterSet k (Some "v"%string) down;
            afterSet k (Some "v"%string) up]) /\
  fst (Store_Set down k (Some "v"%string)) <> None /\
  clientImpl_Delete [down] k = (None, [afterDelete k down]).
Proof.
  intros k down up.
  destruct (cache_writes_reach_all_stores [down; up]) as (A & _).
  destruct (cache_writes_reach_all_stores [down]) as (_ & _ & C & _).
  split; [exact (A k (Some "v"%string))|].
  split; [discriminate|exact (C k)].
Defined.

Lemma cache_Get_first_hit_witness :
  let k := "k"%string in
  let down := listStore true [(k, "stale"%string)] in
  let empty := listStore false [] in
  let full := listStore false [(k, "v"%string)] in
  let last := listStore false [(k, "other"%string)] in
  clientImpl_Get ([down; empty] ++ full :: [last]) k
  = (Some "v"%string, None,
     map (afterGet k) [down; empty] ++ afterGet k full :: [last]) /\
  clientImpl_Get [down; empty] k
  = (None, None, map (afterGet k) [down; empty]).
Proof.
  intros k down empty full last.
  destruct (cache_Get_first_hit k) as (A & B & _).
  split.
  - apply A; [|reflexivity].
    repeat constructor.
  - apply B. repeat constructor.
Defined.

End CacheProofs.
